(** * cssselect2: the selector compiler ([cssselect2/compiler.py])

    [_compile_node] turns a parsed selector into the source text of a Python
    boolean expression over the variable [el]; [CompiledSelector] evaluates
    that text once (as the body of [lambda el: ...]) and keeps the resulting
    function as its [test].

    The development follows the code in three layers:
    - the values the compiler consumes (selector nodes, tokens) and the
      element adapter the generated expression queries;
    - the generated expression, kept as a syntax tree with one constructor
      per template string of [compiler.py], and its evaluation, which also
      logs every call made on the element adapter, in Python's order;
    - [_compile_node], [html_tag_eq] and [CompiledSelector] themselves. *)

From Stdlib Require Import String Ascii List ZArith Bool Lia Arith.
Import ListNotations.

Set Warnings "-register-all".

Open Scope string_scope.
Open Scope list_scope.

(** ** Python strings

    A [string] stands for a Python text string whose characters are the code
    points below 256. *)

Module PyStr.

Definition chars (s : string) : list ascii := list_ascii_of_string s.

Definition code (c : ascii) : nat := nat_of_ascii c.

(** [str.isspace] on one character, for code points below 256. *)
Definition isspace (c : ascii) : bool :=
  let n := code c in
  (((9 <=? n) && (n <=? 13)) || ((28 <=? n) && (n <=? 32))
   || (n =? 133) || (n =? 160))%nat.

(** The class [[ \t\r\n\f]] of the regular expression behind
    [split_whitespace]. *)
Definition css_space (c : ascii) : bool :=
  let n := code c in
  ((n =? 32) || (n =? 9) || (n =? 13) || (n =? 10) || (n =? 12))%nat.

(** Maximal runs of characters that are not separators.  [cur] is the run
    being read, in reverse. *)
Fixpoint runs (sep : ascii -> bool) (cur : list ascii) (l : list ascii)
  : list (list ascii) :=
  match l with
  | [] => match cur with [] => [] | _ => [rev cur] end
  | c :: r =>
      if sep c
      then match cur with
           | [] => runs sep [] r
           | _ => rev cur :: runs sep [] r
           end
      else runs sep (c :: cur) r
  end.

(** [value.split()] *)
Definition split (s : string) : list string :=
  map string_of_list_ascii (runs isspace [] (chars s)).

(** [re.compile('[^ \t\r\n\f]+').findall] *)
Definition findall_non_css_space (s : string) : list string :=
  map string_of_list_ascii (runs css_space [] (chars s)).

Fixpoint lstrip (l : list ascii) : list ascii :=
  match l with
  | [] => []
  | c :: r => if isspace c then lstrip r else l
  end.

(** [value.strip()] *)
Definition strip (s : string) : string :=
  string_of_list_ascii (rev (lstrip (rev (lstrip (chars s))))).

(** [s.startswith(p)] *)
Definition startswith (s p : string) : bool := String.prefix p s.

Fixpoint list_prefix (p l : list ascii) : bool :=
  match p, l with
  | [], _ => true
  | a :: p', b :: l' => Ascii.eqb a b && list_prefix p' l'
  | _ :: _, [] => false
  end.

(** [s.endswith(p)] *)
Definition endswith (s p : string) : bool :=
  list_prefix (rev (chars p)) (rev (chars s)).

(** [p in s] for two strings *)
Fixpoint contains (s p : string) : bool :=
  String.prefix p s
  || match s with
     | EmptyString => false
     | String _ s' => contains s' p
     end.

(** Truth value of a string: non-empty. *)
Definition truthy (s : string) : bool :=
  match s with EmptyString => false | _ => true end.

(** [x == y] where [x] may be [None] and [y] is a string. *)
Definition opt_eq (x : option string) (y : string) : bool :=
  match x with
  | Some v => String.eqb v y
  | None => false
  end.

(** [y in xs] for a collection of strings. *)
Definition mem (y : string) (xs : list string) : bool :=
  existsb (String.eqb y) xs.

End PyStr.

(** ** The element adapter ([cssselect2.tree])

    Modelled from the spec: [tree.py], the wrapper class whose instances the
    generated expression receives as [el], is not part of the compiler
    module.  The record lists the capabilities the expression uses: an
    optional parent, an optional previous sibling, the position in the
    sibling list, the underlying tree nodes, names, id, classes, attributes
    and language. *)

Record EtreeElement : Type := mkEtree {
  tag : string;
  text : option string }.

Inductive Element : Type := mkElement {
  parent : option Element;
  previous : option Element;
  index : nat;
  etree_element : EtreeElement;
  etree_siblings : list EtreeElement;
  etree_children : list EtreeElement;
  local_name : string;
  namespace_url : option string;
  id : option string;
  classes : list string;
  attrib : list (string * string);
  lang : option string }.

(** Modelled from the spec: the strict ancestors of an element, nearest
    first. *)
Fixpoint iter_ancestors (el : Element) : list Element :=
  match el with
  | mkElement (Some p) _ _ _ _ _ _ _ _ _ _ _ => p :: iter_ancestors p
  | mkElement None _ _ _ _ _ _ _ _ _ _ _ => []
  end.

(** Modelled from the spec: the preceding siblings of an element, nearest
    first. *)
Fixpoint iter_previous_siblings (el : Element) : list Element :=
  match el with
  | mkElement _ (Some s) _ _ _ _ _ _ _ _ _ _ => s :: iter_previous_siblings s
  | mkElement _ None _ _ _ _ _ _ _ _ _ _ => []
  end.

Fixpoint assoc (key : string) (l : list (string * string)) : option string :=
  match l with
  | [] => None
  | (k, v) :: r => if String.eqb k key then Some v else assoc key r
  end.

(** Modelled from the spec: attribute lookup by namespaced key, with an
    optional default ([None] when omitted). *)
Definition get_attr (el : Element) (key : string) (default : option string)
  : option string :=
  match assoc key (attrib el) with
  | Some v => Some v
  | None => default
  end.

(** ** Calls on the adapter

    Every attribute read and method call the generated expression makes on
    an element is logged, so that the order in which the matcher consults
    the tree can be stated. *)

Inductive accessor : Type :=
| a_parent
| a_previous
| a_iter_ancestors
| a_iter_previous_siblings
| a_index
| a_etree_element
| a_etree_siblings
| a_etree_children
| a_local_name
| a_namespace_url
| a_id
| a_classes
| a_lang
| a_get_attr (key : string) (default : option string).

Definition event : Type := (Element * accessor)%type.

(** A computation that returns a value and the calls it made. *)
Definition M (A : Type) : Type := (A * list event)%type.

Definition ret {A : Type} (a : A) : M A := (a, []).

Definition bind {A B : Type} (m : M A) (k : A -> M B) : M B :=
  let (a, t) := m in
  let (b, t') := k a in
  (b, t ++ t').

Declare Scope py_scope.
Delimit Scope py_scope with py.

Notation "x <- m ;; k" := (bind m (fun x => k))
  (at level 61, m at next level, right associativity) : py_scope.

(** [el.<a>], whose value is [f el]. *)
Definition get {A : Type} (a : accessor) (f : Element -> A) (el : Element)
  : M A :=
  (f el, [(el, a)]).

Definition value_of {A : Type} (m : M A) : A := fst m.
Definition calls_of {A : Type} (m : M A) : list event := snd m.

(** ** The generated expression

    One constructor per template string of [_compile_node] and
    [html_tag_eq].  Sub-expressions are always substituted between
    parentheses (or as the whole argument of a call), so the tree is the
    parse of the text.  ['0'] and ['1'] are the only texts made of a bare
    literal, so comparing a returned text with ['0'] or ['1'] is comparing
    the tree with [Zero] or [One]. *)

Inductive count : Type :=
| c_index                (* el.index *)
| c_after                (* (len(el.etree_siblings) - el.index - 1) *)
| c_same_tag_before      (* sum(1 for s in el.etree_siblings[:el.index]
                                if s.tag == el.etree_element.tag) *)
| c_same_tag_after.      (* sum(1 for s in el.etree_siblings[el.index + 1:]
                                if s.tag == el.etree_element.tag) *)

Inductive expr : Type :=
| Zero                                   (* 0 *)
| One                                    (* 1 *)
| ParentIsNotNone                        (* el.parent is not None *)
| PreviousIsNotNone                      (* el.previous is not None *)
| AnyAncestors (inside : expr)           (* any((%s) for el in el.iter_ancestors()) *)
| NextParent (inside : expr)             (* next(el is not None and (%s) for el in [el.parent]) *)
| NextPrevious (inside : expr)           (* next(el is not None and (%s) for el in [el.previous]) *)
| AnyPreviousSiblings (inside : expr)    (* any((%s) for el in el.iter_previous_siblings()) *)
| And (a b : expr)                       (* (%s) and (%s) *)
| Or (a b : expr)                        (* (%s) or (%s) *)
| Not (a : expr)                         (* not (%s) *)
| LocalNameEq (name : string)            (* el.local_name == %r *)
| NamespaceUrlEq (url : string)          (* el.namespace_url == %r *)
| InClasses (name : string)              (* %r in el.classes *)
| IdEq (ident : string)                  (* el.id == %r *)
| AttrIsNotNone (key : string)           (* el.get_attr(%r) is not None *)
| AttrIsNone (key : string)              (* el.get_attr(%r) is None *)
| AttrEq (key value : string)            (* el.get_attr(%r) == %r *)
| AttrIncludes (value key : string)      (* %r in split_whitespace(el.get_attr(%r, '')) *)
| AttrDashMatch (value value_dash key : string)
                                         (* next(v == %r or (v is not None and v.startswith(%r))
                                                 for v in [el.get_attr(%r)]) *)
| AttrStartswith (key value : string)    (* el.get_attr(%r, '').startswith(%r) *)
| AttrEndswith (key value : string)      (* el.get_attr(%r, '').endswith(%r) *)
| AttrContains (value key : string)      (* %r in el.get_attr(%r, '') *)
| TagEq (t : string)                     (* (el.etree_element.tag == %r) *)
| TagIn (ts : list string)               (* (el.etree_element.tag in (%s)) *)
| ParentIsNone                           (* el.parent is None *)
| IsLastChild                            (* el.index + 1 == len(el.etree_siblings) *)
| FirstOfType                            (* all(s.tag != el.etree_element.tag
                                                for s in el.etree_siblings[:el.index]) *)
| LastOfType                             (* all(s.tag != el.etree_element.tag
                                                for s in el.etree_siblings[el.index + 1:]) *)
| OnlyChild                              (* len(el.etree_siblings) == 1 *)
| OnlyOfType                             (* all(s.tag != el.etree_element.tag or i == el.index
                                                for i, s in enumerate(el.etree_siblings)) *)
| IsEmpty                                (* not (el.etree_children or el.etree_element.text) *)
| LangMatch (lang lang_dash : string)    (* el.lang == %r or
                                            (el.lang is not None and el.lang.startswith(%r)) *)
| CountEq (c : count) (B : Z)            (* %s == %i *)
| NthDivmod (c : count) (B a : Z).       (* next(r == 0 and n >= 0
                                                 for n, r in [divmod(%s - %i, %i)]) *)

(** [source == '0'] and [source == '1'] *)
Definition is_0 (e : expr) : bool :=
  match e with Zero => true | _ => false end.

Definition is_1 (e : expr) : bool :=
  match e with One => true | _ => false end.

(** ** Evaluation

    [run e el] is the evaluation of the expression in a scope where the
    variable [el] is bound to the element: it returns the truth value of the
    result (Python's [0], [False], the empty string and the empty list are
    false) and the calls made on elements, in order.  [and], [or], [any] and
    [all] stop as Python does. *)

Local Open Scope py_scope.

(** [any(f(x) for x in l)] *)
Fixpoint any_gen {A : Type} (f : A -> M bool) (l : list A) : M bool :=
  match l with
  | [] => ret false
  | x :: r => b <- f x ;; if b then ret true else any_gen f r
  end.

(** [all(f(x) for x in l)] *)
Fixpoint all_gen {A : Type} (f : A -> M bool) (l : list A) : M bool :=
  match l with
  | [] => ret true
  | x :: r => b <- f x ;; if b then all_gen f r else ret false
  end.

(** [sum(1 for x in l if f(x))] *)
Fixpoint sum_gen {A : Type} (f : A -> M bool) (l : list A) : M Z :=
  match l with
  | [] => ret 0%Z
  | x :: r => b <- f x ;; n <- sum_gen f r ;; ret (if b then (1 + n)%Z else n)
  end.

(** [enumerate(l)], counting from [i] *)
Fixpoint enumerate {A : Type} (i : nat) (l : list A) : list (nat * A) :=
  match l with
  | [] => []
  | x :: r => (i, x) :: enumerate (S i) r
  end.

(** [s.tag == el.etree_element.tag] and [s.tag != el.etree_element.tag] *)
Definition same_tag (el : Element) (s : EtreeElement) : M bool :=
  e <- get a_etree_element etree_element el ;;
  ret (String.eqb (tag s) (tag e)).

Definition other_tag (el : Element) (s : EtreeElement) : M bool :=
  e <- get a_etree_element etree_element el ;;
  ret (negb (String.eqb (tag s) (tag e))).

(** [l[:el.index]] and [l[el.index + 1:]] with [l = el.etree_siblings] *)
Definition siblings_before (el : Element) : M (list EtreeElement) :=
  l <- get a_etree_siblings etree_siblings el ;;
  i <- get a_index index el ;;
  ret (firstn i l).

Definition siblings_after (el : Element) : M (list EtreeElement) :=
  l <- get a_etree_siblings etree_siblings el ;;
  i <- get a_index index el ;;
  ret (skipn (i + 1) l).

Definition run_count (c : count) (el : Element) : M Z :=
  match c with
  | c_index =>
      i <- get a_index index el ;;
      ret (Z.of_nat i)
  | c_after =>
      l <- get a_etree_siblings etree_siblings el ;;
      i <- get a_index index el ;;
      ret (Z.of_nat (List.length l) - Z.of_nat i - 1)%Z
  | c_same_tag_before =>
      l <- siblings_before el ;;
      sum_gen (same_tag el) l
  | c_same_tag_after =>
      l <- siblings_after el ;;
      sum_gen (same_tag el) l
  end.

Definition is_some {A : Type} (o : option A) : bool :=
  match o with Some _ => true | None => false end.

Definition or_empty (o : option string) : string :=
  match o with Some v => v | None => EmptyString end.

Fixpoint run (e : expr) (el : Element) : M bool :=
  match e with
  | Zero => ret false
  | One => ret true
  | ParentIsNotNone =>
      p <- get a_parent parent el ;;
      ret (is_some p)
  | PreviousIsNotNone =>
      p <- get a_previous previous el ;;
      ret (is_some p)
  | AnyAncestors inside =>
      l <- get a_iter_ancestors iter_ancestors el ;;
      any_gen (run inside) l
  | NextParent inside =>
      p <- get a_parent parent el ;;
      match p with
      | None => ret false
      | Some el' => run inside el'
      end
  | NextPrevious inside =>
      p <- get a_previous previous el ;;
      match p with
      | None => ret false
      | Some el' => run inside el'
      end
  | AnyPreviousSiblings inside =>
      l <- get a_iter_previous_siblings iter_previous_siblings el ;;
      any_gen (run inside) l
  | And a b =>
      x <- run a el ;;
      if x then run b el else ret false
  | Or a b =>
      x <- run a el ;;
      if x then ret true else run b el
  | Not a =>
      x <- run a el ;;
      ret (negb x)
  | LocalNameEq name =>
      v <- get a_local_name local_name el ;;
      ret (String.eqb v name)
  | NamespaceUrlEq url =>
      v <- get a_namespace_url namespace_url el ;;
      ret (PyStr.opt_eq v url)
  | InClasses name =>
      v <- get a_classes classes el ;;
      ret (PyStr.mem name v)
  | IdEq ident =>
      v <- get a_id id el ;;
      ret (PyStr.opt_eq v ident)
  | AttrIsNotNone key =>
      v <- get (a_get_attr key None) (fun el => get_attr el key None) el ;;
      ret (is_some v)
  | AttrIsNone key =>
      v <- get (a_get_attr key None) (fun el => get_attr el key None) el ;;
      ret (negb (is_some v))
  | AttrEq key value =>
      v <- get (a_get_attr key None) (fun el => get_attr el key None) el ;;
      ret (PyStr.opt_eq v value)
  | AttrIncludes value key =>
      v <- get (a_get_attr key (Some EmptyString))
               (fun el => get_attr el key (Some EmptyString)) el ;;
      ret (PyStr.mem value (PyStr.findall_non_css_space (or_empty v)))
  | AttrDashMatch value value_dash key =>
      v <- get (a_get_attr key None) (fun el => get_attr el key None) el ;;
      ret (PyStr.opt_eq v value
           || match v with
              | Some s => PyStr.startswith s value_dash
              | None => false
              end)
  | AttrStartswith key value =>
      v <- get (a_get_attr key (Some EmptyString))
               (fun el => get_attr el key (Some EmptyString)) el ;;
      ret (PyStr.startswith (or_empty v) value)
  | AttrEndswith key value =>
      v <- get (a_get_attr key (Some EmptyString))
               (fun el => get_attr el key (Some EmptyString)) el ;;
      ret (PyStr.endswith (or_empty v) value)
  | AttrContains value key =>
      v <- get (a_get_attr key (Some EmptyString))
               (fun el => get_attr el key (Some EmptyString)) el ;;
      ret (PyStr.contains (or_empty v) value)
  | TagEq t =>
      e <- get a_etree_element etree_element el ;;
      ret (String.eqb (tag e) t)
  | TagIn ts =>
      e <- get a_etree_element etree_element el ;;
      ret (PyStr.mem (tag e) ts)
  | ParentIsNone =>
      p <- get a_parent parent el ;;
      ret (negb (is_some p))
  | IsLastChild =>
      i <- get a_index index el ;;
      l <- get a_etree_siblings etree_siblings el ;;
      ret (Nat.eqb (i + 1) (List.length l))
  | FirstOfType =>
      l <- siblings_before el ;;
      all_gen (other_tag el) l
  | LastOfType =>
      l <- siblings_after el ;;
      all_gen (other_tag el) l
  | OnlyChild =>
      l <- get a_etree_siblings etree_siblings el ;;
      ret (Nat.eqb (List.length l) 1)
  | OnlyOfType =>
      l <- get a_etree_siblings etree_siblings el ;;
      all_gen (fun '(i, s) =>
                 x <- other_tag el s ;;
                 if x then ret true
                 else j <- get a_index index el ;; ret (Nat.eqb i j))
              (enumerate 0 l)
  | IsEmpty =>
      c <- get a_etree_children etree_children el ;;
      match c with
      | _ :: _ => ret false
      | [] =>
          e <- get a_etree_element etree_element el ;;
          ret (negb (match text e with
                     | Some s => PyStr.truthy s
                     | None => false
                     end))
      end
  | LangMatch lang_ lang_dash =>
      v <- get a_lang lang el ;;
      if PyStr.opt_eq v lang_ then ret true
      else
        w <- get a_lang lang el ;;
        match w with
        | None => ret false
        | Some _ =>
            u <- get a_lang lang el ;;
            ret (PyStr.startswith (or_empty u) lang_dash)
        end
  | CountEq c B =>
      x <- run_count c el ;;
      ret (Z.eqb x B)
  | NthDivmod c B a =>
      x <- run_count c el ;;
      let (n, r) := Z.div_eucl (x - B) a in
      ret (Z.eqb r 0 && Z.geb n 0)
  end.

(** What the function [lambda el: <source>] returns on [el]. *)
Definition matches (e : expr) (el : Element) : bool := value_of (run e el).

(** ** Selector nodes ([cssselect2.parser]) and tokens ([tinycss2.ast])

    Modelled from the spec: [parser.py] is not part of the compiler module;
    the node classes and their fields are those [_compile_node] and
    [CompiledSelector] read.  [NegationSelector] is a [CompoundSelector]
    (it has [simple_selectors] and passes the same [isinstance] test). *)

Record Token : Type := mkToken {
  type : string;
  value : string }.

Inductive Selector : Type :=
| CombinedSelector (left : Selector) (combinator : string) (right : Selector)
| CompoundSelector (simple_selectors : list Selector)
| NegationSelector (simple_selectors : list Selector)
| LocalNameSelector (local_name : string)
| NamespaceSelector (namespace : string)
| ClassSelector (class_name : string)
| IDSelector (ident : string)
| AttributeSelector (namespace : option string) (name : string)
                    (operator : option string) (value : string)
| PseudoClassSelector (name : string)
| FunctionalPseudoClassSelector (name : string) (arguments : list Token).

Record ParsedSelector : Type := mkParsed {
  parsed_tree : Selector;
  parsed_specificity : nat * nat * nat;
  parsed_pseudo_element : option string }.

(** ** Exceptions *)

Inductive exn : Type :=
| SelectorError (args : list string)
| NotImplementedError
| AttributeError (attribute : string).

Inductive result (A : Type) : Type :=
| Ok (a : A)
| Raise (e : exn).

Arguments Ok {A} a.
Arguments Raise {A} e.

Definition rbind {A B : Type} (m : result A) (k : A -> result B) : result B :=
  match m with
  | Ok a => k a
  | Raise e => Raise e
  end.

Declare Scope result_scope.
Delimit Scope result_scope with result.

Notation "x <-- m ;; k" := (rbind m (fun x => k))
  (at level 61, m at next level, right associativity) : result_scope.

(** [map(f, l)] consumed into a list: the first exception stops it. *)
Definition map_result {A B : Type} (f : A -> result B)
  : list A -> result (list B) :=
  fix go (l : list A) : result (list B) :=
    match l with
    | [] => Ok []
    | x :: r =>
        match f x with
        | Ok y => match go r with
                  | Ok ys => Ok (y :: ys)
                  | Raise e => Raise e
                  end
        | Raise e => Raise e
        end
    end.

(** ** [html_tag_eq] *)

Definition xhtml : string := "{http://www.w3.org/1999/xhtml}".

Definition html_tag_eq (local_names : list string) : expr :=
  match local_names with
  | [n] => TagEq (xhtml ++ n)%string
  | _ => TagIn (map (fun n => (xhtml ++ n)%string) local_names)
  end.

(** ** [_compile_node] *)

(** [' and '.join('(%s)' % e for e in sub_expressions)]: the chain
    [(e1) and (e2) and ... and (en)], which Python evaluates from the left
    and leaves at the first false operand. *)
Fixpoint join_and (sub_expressions : list expr) : expr :=
  match sub_expressions with
  | [] => One
  | [e] => e
  | e :: r => And e (join_and r)
  end.

(** The part of the [CompoundSelector] branch that follows the compilation
    of the simple selectors. *)
Definition compound_test (compiled : list expr) : expr :=
  let sub_expressions := filter (fun e => negb (is_1 e)) compiled in
  if Nat.eqb (List.length sub_expressions) 1
  then hd One sub_expressions
  else if existsb is_0 sub_expressions then Zero
  else match sub_expressions with
       | _ :: _ => join_and sub_expressions
       | [] => One
       end.

Definition negate (test : expr) : expr :=
  if is_0 test then One
  else if is_1 test then Zero
  else Not test.

Definition form_controls : list string :=
  ["button"; "input"; "select"; "textarea"; "option"; "optgroup";
   "menuitem"; "fieldset"].

Definition hyperlinks : list string := ["a"; "area"; "link"].

(** ** [CompiledSelector] *)

Module CompiledSelector.

Record t : Type := mk {
  never_matches : bool;
  test : Element -> M bool;
  specificity : nat * nat * nat;
  pseudo_element : option string;
  id : option string;
  class_name : option string;
  local_name : option string;
  namespace : option string }.

Definition set_id (self : t) (v : string) : t :=
  mk (never_matches self) (test self) (specificity self) (pseudo_element self)
     (Some v) (class_name self) (local_name self) (namespace self).

Definition set_class_name (self : t) (v : string) : t :=
  mk (never_matches self) (test self) (specificity self) (pseudo_element self)
     (id self) (Some v) (local_name self) (namespace self).

Definition set_local_name (self : t) (v : string) : t :=
  mk (never_matches self) (test self) (specificity self) (pseudo_element self)
     (id self) (class_name self) (Some v) (namespace self).

Definition set_namespace (self : t) (v : string) : t :=
  mk (never_matches self) (test self) (specificity self) (pseudo_element self)
     (id self) (class_name self) (local_name self) (Some v).

(** The body of the loop over [node.simple_selectors]. *)
Definition record_hint (self : t) (simple_selector : Selector) : t :=
  match simple_selector with
  | IDSelector ident => set_id self ident
  | ClassSelector class_name => set_class_name self class_name
  | LocalNameSelector local_name => set_local_name self local_name
  | NamespaceSelector namespace => set_namespace self namespace
  | _ => self
  end.

(** [node.simple_selectors] *)
Definition simple_selectors_of (node : Selector) : result (list Selector) :=
  match node with
  | CompoundSelector simple_selectors => Ok simple_selectors
  | NegationSelector simple_selectors => Ok simple_selectors
  | _ => Raise (AttributeError "simple_selectors")
  end.

(** The node whose simple selectors are inspected. *)
Definition subject (parsed_tree : Selector) : Selector :=
  match parsed_tree with
  | CombinedSelector _ _ right_ => right_
  | node => node
  end.

End CompiledSelector.

Local Open Scope result_scope.

Section Compiler.

(** [tinycss2.nth.parse_nth], a function of another library: the [(a, b)] of
    an [an+b] argument, or [None]. *)
Variable parse_nth : list Token -> option (Z * Z).

Fixpoint _compile_node (selector : Selector) : result expr :=
  match selector with
  | CombinedSelector left_ combinator right_ =>
      left_inside <-- _compile_node left_ ;;
      if is_0 left_inside then Ok Zero
      else
        left <--
          (if is_1 left_inside then
             if PyStr.mem combinator [" "; ">"] then Ok ParentIsNotNone
             else if PyStr.mem combinator ["~"; "+"] then Ok PreviousIsNotNone
             else Raise (SelectorError ["Unknown combinator"; combinator])
           else if String.eqb combinator " " then
             Ok (AnyAncestors left_inside)
           else if String.eqb combinator ">" then
             Ok (NextParent left_inside)
           else if String.eqb combinator "+" then
             Ok (NextPrevious left_inside)
           else if String.eqb combinator "~" then
             Ok (AnyPreviousSiblings left_inside)
           else Raise (SelectorError ["Unknown combinator"; combinator])) ;;
        right <-- _compile_node right_ ;;
        if is_0 right then Ok Zero
        else if is_1 right then Ok left
        else Ok (And right left)
  | CompoundSelector simple_selectors =>
      compiled <-- map_result _compile_node simple_selectors ;;
      Ok (compound_test compiled)
  | NegationSelector simple_selectors =>
      compiled <-- map_result _compile_node simple_selectors ;;
      Ok (negate (compound_test compiled))
  | LocalNameSelector local_name => Ok (LocalNameEq local_name)
  | NamespaceSelector namespace => Ok (NamespaceUrlEq namespace)
  | ClassSelector class_name => Ok (InClasses class_name)
  | IDSelector ident => Ok (IdEq ident)
  | AttributeSelector namespace name operator value =>
      match namespace with
      | Some ns =>
          let key := if PyStr.truthy ns
                     then ("{" ++ ns ++ "}" ++ name)%string
                     else name in
          match operator with
          | None => Ok (AttrIsNotNone key)
          | Some op =>
              if String.eqb op "=" then Ok (AttrEq key value)
              else if String.eqb op "~=" then
                if negb (Nat.eqb (List.length (PyStr.split value)) 1)
                   || negb (String.eqb (PyStr.strip value) value)
                then Ok Zero
                else Ok (AttrIncludes value key)
              else if String.eqb op "|=" then
                Ok (AttrDashMatch value (value ++ "-")%string key)
              else if String.eqb op "^=" then
                if PyStr.truthy value then Ok (AttrStartswith key value)
                else Ok Zero
              else if String.eqb op "$=" then
                if PyStr.truthy value then Ok (AttrEndswith key value)
                else Ok Zero
              else if String.eqb op "*=" then
                if PyStr.truthy value then Ok (AttrContains value key)
                else Ok Zero
              else Raise (SelectorError ["Unknown attribute operator"; op])
          end
      | None => Raise NotImplementedError
      end
  | PseudoClassSelector name =>
      if String.eqb name "link" then
        Ok (And (html_tag_eq hyperlinks) (AttrIsNotNone "href"))
      else if String.eqb name "enabled" then
        Ok (Or (And (html_tag_eq form_controls) (AttrIsNone "disabled"))
               (And (html_tag_eq hyperlinks) (AttrIsNotNone "href")))
      else if String.eqb name "disabled" then
        Ok (And (html_tag_eq form_controls) (AttrIsNotNone "disabled"))
      else if String.eqb name "checked" then
        Ok (Or (And (html_tag_eq ["input"; "menuitem"])
                    (AttrIsNotNone "checked"))
               (And (html_tag_eq ["option"]) (AttrIsNotNone "selected")))
      else if PyStr.mem name ["visited"; "hover"; "active"; "focus"; "target"]
      then Ok Zero
      else if String.eqb name "root" then Ok ParentIsNone
      else if String.eqb name "first-child" then Ok (CountEq c_index 0)
      else if String.eqb name "last-child" then Ok IsLastChild
      else if String.eqb name "first-of-type" then Ok FirstOfType
      else if String.eqb name "last-of-type" then Ok LastOfType
      else if String.eqb name "only-child" then Ok OnlyChild
      else if String.eqb name "only-of-type" then Ok OnlyOfType
      else if String.eqb name "empty" then Ok IsEmpty
      else Raise (SelectorError ["Unknown pseudo-class"; name])
  | FunctionalPseudoClassSelector name arguments =>
      if String.eqb name "lang" then
        let tokens :=
          filter (fun t => negb (String.eqb (type t) "whitespace")) arguments
        in
        match tokens with
        | [t] =>
            if String.eqb (type t) "ident"
            then let lang_ := value t in
                 Ok (LangMatch lang_ (lang_ ++ "-")%string)
            else Raise (SelectorError ["Invalid arguments for :lang()"])
        | _ => Raise (SelectorError ["Invalid arguments for :lang()"])
        end
      else
        count_ <--
          (if String.eqb name "nth-child" then Ok c_index
           else if String.eqb name "nth-last-child" then Ok c_after
           else if String.eqb name "nth-of-type" then Ok c_same_tag_before
           else if String.eqb name "nth-last-of-type" then Ok c_same_tag_after
           else Raise (SelectorError ["Unknown pseudo-class"; name])) ;;
        match parse_nth arguments with
        | None =>
            Raise (SelectorError
                     [("Invalid arguments for :" ++ name ++ "()")%string])
        | Some (a, b) =>
            let B := (b - 1)%Z in
            if Z.eqb a 0 then Ok (CountEq count_ B)
            else Ok (NthDivmod count_ B a)
        end
  end.

(** [CompiledSelector.__init__] *)
Definition CompiledSelector_init (parsed_selector : ParsedSelector)
  : result CompiledSelector.t :=
  source <-- _compile_node (parsed_tree parsed_selector) ;;
  let self :=
    CompiledSelector.mk
      (is_0 source)
      (run source)
      (parsed_specificity parsed_selector)
      (parsed_pseudo_element parsed_selector)
      None None None None in
  let node := CompiledSelector.subject (parsed_tree parsed_selector) in
  simple_selectors <-- CompiledSelector.simple_selectors_of node ;;
  Ok (fold_left CompiledSelector.record_hint simple_selectors self).

End Compiler.

(** ** Fixtures: a three-level tree [A -> B -> C] and a sibling row *)

Module Fixture.

Definition demo_parse_nth (arguments : list Token) : option (Z * Z) :=
  match arguments with
  | [t] =>
      if String.eqb (value t) "odd" then Some (2, 1)%Z
      else if String.eqb (value t) "even" then Some (2, 0)%Z
      else if String.eqb (value t) "3" then Some (0, 3)%Z
      else None
  | _ => None
  end.

Definition node (name : string) : EtreeElement := mkEtree name None.

Definition element (up prev : option Element) (i : nat) (name : string)
  (row : list EtreeElement) (attrs : list (string * string)) : Element :=
  mkElement up prev i (node name) row [] name None None [] attrs None.

Definition A : Element := element None None 0 "a" [node "a"] [].
Definition B : Element := element (Some A) None 0 "x" [node "x"] [].
Definition C : Element := element (Some B) None 0 "b" [node "b"] [].

Definition row : list EtreeElement := [node "li"; node "p"; node "li"].
Definition li0 : Element := element (Some A) None 0 "li" row [].
Definition p1 : Element := element (Some A) (Some li0) 1 "p" row [].
Definition li2 : Element := element (Some A) (Some p1) 2 "li" row [].

Definition compound (name : string) : Selector :=
  CompoundSelector [LocalNameSelector name].

(** An XHTML link, a link without namespace, and a form control. *)
Definition xhtml_a : Element :=
  mkElement None None 0 (mkEtree "{http://www.w3.org/1999/xhtml}a" None)
    [mkEtree "{http://www.w3.org/1999/xhtml}a" None] [] "a"
    (Some "http://www.w3.org/1999/xhtml") None []
    [("href", "#top"); ("disabled", "disabled")] None.

Definition plain_a : Element :=
  element None None 0 "a" [node "a"] [("href", "#top")].

Definition xhtml_input : Element :=
  mkElement None None 0 (mkEtree "{http://www.w3.org/1999/xhtml}input" None)
    [mkEtree "{http://www.w3.org/1999/xhtml}input" None] [] "input"
    (Some "http://www.w3.org/1999/xhtml") None []
    [("disabled", "disabled")] None.

(** A list item with an id and a class, child of [ul]. *)
Definition ul : Element := element None None 0 "ul" [node "ul"] [].

Definition hinted : Element :=
  mkElement (Some ul) None 0 (node "li") [node "li"] [] "li" None
    (Some "x") ["on"] [] None.

(** The third item of the row, under another parent and without the
    siblings before it as wrappers. *)
Definition li2_moved : Element := element (Some C) None 2 "li" row [].

End Fixture.

(** ** The tree relations and the combinators, as the specification words them *)

(** [strict_ancestor el a]: [a] is the parent of [el], or the parent of one
    of its ancestors. *)
Inductive strict_ancestor : Element -> Element -> Prop :=
| ancestor_parent (el p : Element) :
    parent el = Some p -> strict_ancestor el p
| ancestor_above (el p a : Element) :
    parent el = Some p -> strict_ancestor p a -> strict_ancestor el a.

(** [preceding_sibling el s]: [s] comes before [el], at any distance. *)
Inductive preceding_sibling : Element -> Element -> Prop :=
| sibling_previous (el s : Element) :
    previous el = Some s -> preceding_sibling el s
| sibling_before (el s s' : Element) :
    previous el = Some s -> preceding_sibling s s' -> preceding_sibling el s'.

(** What a combinator demands of the element [el] for a left-hand test
    [left_matches]. *)
Definition combinator_relation (combinator : string)
  (left_matches : Element -> bool) (el : Element) : Prop :=
  if String.eqb combinator " " then
    exists a, strict_ancestor el a /\ left_matches a = true
  else if String.eqb combinator ">" then
    exists p, parent el = Some p /\ left_matches p = true
  else if String.eqb combinator "+" then
    exists s, previous el = Some s /\ left_matches s = true
  else if String.eqb combinator "~" then
    exists s, preceding_sibling el s /\ left_matches s = true
  else False.

(** The call by which a left-hand search enters the tree. *)
Definition search_call (combinator : string) : option accessor :=
  if String.eqb combinator " " then Some a_iter_ancestors
  else if String.eqb combinator ">" then Some a_parent
  else if String.eqb combinator "+" then Some a_previous
  else if String.eqb combinator "~" then Some a_iter_previous_siblings
  else None.

Definition combinators : list string := [" "; ">"; "+"; "~"].

(** The expression searched on the left of a combinator, for a left side
    that is neither ['0'] nor ['1']. *)
Definition search (combinator : string) (left_inside : expr) : expr :=
  if String.eqb combinator " " then AnyAncestors left_inside
  else if String.eqb combinator ">" then NextParent left_inside
  else if String.eqb combinator "+" then NextPrevious left_inside
  else AnyPreviousSiblings left_inside.

(** The existence check that stands for a left side compiled to ['1']. *)
Definition existence (combinator : string) : expr :=
  if PyStr.mem combinator [" "; ">"] then ParentIsNotNone
  else PreviousIsNotNone.

(** The element has a parent (descendant and child combinators) or a
    previous sibling (the two sibling combinators). *)
Definition has_neighbour (combinator : string) (el : Element) : bool :=
  if PyStr.mem combinator [" "; ">"] then is_some (parent el)
  else is_some (previous el).

(** The left-hand test of a combined selector, by the state of its left
    side. *)
Definition left_test (combinator : string) (left_inside : expr) : expr :=
  if is_0 left_inside then Zero
  else if is_1 left_inside then existence combinator
  else search combinator left_inside.

(** The conjunction with a right side, by its state. *)
Definition and_right (right_ left_ : expr) : expr :=
  if is_0 right_ then Zero
  else if is_1 right_ then left_
  else And right_ left_.

(** ** The simple selectors of each kind in a compound *)

Definition ident_of (s : Selector) : option string :=
  match s with IDSelector ident => Some ident | _ => None end.

Definition class_name_of (s : Selector) : option string :=
  match s with ClassSelector class_name => Some class_name | _ => None end.

Definition local_name_of (s : Selector) : option string :=
  match s with LocalNameSelector local_name => Some local_name | _ => None end.

Definition namespace_of (s : Selector) : option string :=
  match s with NamespaceSelector namespace => Some namespace | _ => None end.

(** The value carried by the first, and by the last, simple selector of a
    kind among the direct members of a compound. *)
Fixpoint first_of (kind : Selector -> option string) (l : list Selector)
  : option string :=
  match l with
  | [] => None
  | s :: r =>
      match kind s with
      | Some v => Some v
      | None => first_of kind r
      end
  end.

Definition last_of (kind : Selector -> option string) (l : list Selector)
  : option string :=
  first_of kind (rev l).

Definition or_else (o d : option string) : option string :=
  match o with Some v => Some v | None => d end.

(** The tags that [html_tag_eq] compares with. *)
Definition xhtml_tags (local_names : list string) : list string :=
  map (fun n => (xhtml ++ n)%string) local_names.

Definition interactive : list string :=
  ["visited"; "hover"; "active"; "focus"; "target"].

Definition tag_restricted : list string :=
  ["link"; "enabled"; "disabled"; "checked"].

(** An operand that is one token: not empty, and without a whitespace
    character. *)
Definition single_token (operand : string) : bool :=
  match PyStr.chars operand with
  | [] => false
  | l => forallb (fun c => negb (PyStr.isspace c)) l
  end.

(** The test made on the operand of [~=]. *)
Definition one_word (operand : string) : bool :=
  Nat.eqb (List.length (PyStr.split operand)) 1
  && String.eqb (PyStr.strip operand) operand.

(** ** The siblings counted by the [nth-*] pseudo-classes, as the
    specification words them *)

Definition same_tag_as (el : Element) (s : EtreeElement) : bool :=
  String.eqb (tag s) (tag (etree_element el)).

Definition preceding (el : Element) : list EtreeElement :=
  firstn (index el) (etree_siblings el).

Definition following (el : Element) : list EtreeElement :=
  skipn (index el + 1) (etree_siblings el).

Definition relevant_siblings (name : string) (el : Element)
  : list EtreeElement :=
  if String.eqb name "nth-child" then preceding el
  else if String.eqb name "nth-last-child" then following el
  else if String.eqb name "nth-of-type" then
    filter (same_tag_as el) (preceding el)
  else filter (same_tag_as el) (following el).

(** The element is a member of its sibling list, at its index. *)
Definition well_placed (el : Element) : Prop :=
  index el < List.length (etree_siblings el).

Definition nth_names : list string :=
  ["nth-child"; "nth-last-child"; "nth-of-type"; "nth-last-of-type"].

(** The count expression chosen for a name. *)
Definition nth_count (name : string) : count :=
  if String.eqb name "nth-child" then c_index
  else if String.eqb name "nth-last-child" then c_after
  else if String.eqb name "nth-of-type" then c_same_tag_before
  else c_same_tag_after.

(** ** Further vocabulary for the properties below *)

(** The names with a branch in the [PseudoClassSelector] case. *)
Definition pseudo_class_names : list string :=
  ["link"; "enabled"; "disabled"; "checked"; "visited"; "hover"; "active";
   "focus"; "target"; "root"; "first-child"; "last-child"; "first-of-type";
   "last-of-type"; "only-child"; "only-of-type"; "empty"].

(** The operators with a branch in the [AttributeSelector] case. *)
Definition attribute_operators : list string :=
  ["="; "~="; "|="; "^="; "$="; "*="].

(** [[t for t in selector.arguments if t.type != 'whitespace']] *)
Definition without_whitespace (arguments : list Token) : list Token :=
  filter (fun t => negb (String.eqb (type t) "whitespace")) arguments.

(** An attribute selector in the namespace [ns] ([''] for none). *)
Definition attribute (ns name op operand : string) : Selector :=
  AttributeSelector (Some ns) name (Some op) operand.

(** The key an attribute selector looks up: [name], or ['{ns}name'] in a
    namespace. *)
Definition attribute_key (ns name : string) : string :=
  if PyStr.truthy ns then ("{" ++ ns ++ "}" ++ name)%string else name.


(** Each [nth-*] pseudo-class beside the plain pseudo-class it becomes for
    the argument [1]. *)
Definition nth_and_plain : list (string * string) :=
  [("nth-child", "first-child"); ("nth-last-child", "last-child");
   ("nth-of-type", "first-of-type"); ("nth-last-of-type", "last-of-type")].

(** The sequence a search walks: the ancestors for [' '], the preceding
    siblings for ['~']. *)
Definition walked (combinator : string) (el : Element) : list Element :=
  if String.eqb combinator " " then iter_ancestors el
  else iter_previous_siblings el.

(** Two elements that expose the same data of their own (index, tree node,
    sibling and child tree nodes, names, id, classes, attributes, language)
    and agree on having a parent.  Their parents, previous siblings and
    ancestors are free to differ. *)
Definition same_own_data (el1 el2 : Element) : Prop :=
  index el1 = index el2
  /\ etree_element el1 = etree_element el2
  /\ etree_siblings el1 = etree_siblings el2
  /\ etree_children el1 = etree_children el2
  /\ local_name el1 = local_name el2
  /\ namespace_url el1 = namespace_url el2
  /\ id el1 = id el2
  /\ classes el1 = classes el2
  /\ attrib el1 = attrib el2
  /\ lang el1 = lang el2
  /\ is_some (parent el1) = is_some (parent el2).

(** Expressions without a template of the combinators: no search, no
    evaluation on a parent or a previous sibling, no existence check. *)
Fixpoint stays_on_element (e : expr) : bool :=
  match e with
  | AnyAncestors _ | NextParent _ | NextPrevious _ | AnyPreviousSiblings _ =>
      false
  | ParentIsNotNone | PreviousIsNotNone => false
  | And a b | Or a b => stays_on_element a && stays_on_element b
  | Not a => stays_on_element a
  | _ => true
  end.

(** Selectors without a combinator, at any depth. *)
Fixpoint without_combinator (s : Selector) : bool :=
  match s with
  | CombinedSelector _ _ _ => false
  | CompoundSelector simple_selectors =>
      forallb without_combinator simple_selectors
  | NegationSelector simple_selectors =>
      forallb without_combinator simple_selectors
  | _ => true
  end.

(** Induction on selectors, through the lists of simple selectors. *)
Section SelectorInduction.

Variable P : Selector -> Prop.

Hypothesis P_combined :
  forall l c r, P l -> P r -> P (CombinedSelector l c r).
Hypothesis P_compound :
  forall ss, Forall P ss -> P (CompoundSelector ss).
Hypothesis P_negation :
  forall ss, Forall P ss -> P (NegationSelector ss).
Hypothesis P_local_name : forall n, P (LocalNameSelector n).
Hypothesis P_namespace : forall n, P (NamespaceSelector n).
Hypothesis P_class : forall n, P (ClassSelector n).
Hypothesis P_id : forall n, P (IDSelector n).
Hypothesis P_attribute :
  forall ns n op v, P (AttributeSelector ns n op v).
Hypothesis P_pseudo_class : forall n, P (PseudoClassSelector n).
Hypothesis P_functional :
  forall n args, P (FunctionalPseudoClassSelector n args).

Fixpoint Selector_induction (s : Selector) : P s :=
  match s with
  | CombinedSelector l c r =>
      P_combined l c r (Selector_induction l) (Selector_induction r)
  | CompoundSelector ss =>
      P_compound ss
        ((fix all (l : list Selector) : Forall P l :=
            match l with
            | [] => Forall_nil P
            | x :: r => Forall_cons x (Selector_induction x) (all r)
            end) ss)
  | NegationSelector ss =>
      P_negation ss
        ((fix all (l : list Selector) : Forall P l :=
            match l with
            | [] => Forall_nil P
            | x :: r => Forall_cons x (Selector_induction x) (all r)
            end) ss)
  | LocalNameSelector n => P_local_name n
  | NamespaceSelector n => P_namespace n
  | ClassSelector n => P_class n
  | IDSelector n => P_id n
  | AttributeSelector ns n op v => P_attribute ns n op v
  | PseudoClassSelector n => P_pseudo_class n
  | FunctionalPseudoClassSelector n args => P_functional n args
  end.

End SelectorInduction.

(** ** Words between separators *)

(** [b] is empty or starts with a separator; [a] is empty or ends with
    one; [w] stands in [l] between separators or the ends of [l]. *)
Definition right_bounded (sep : ascii -> bool) (b : list ascii) : Prop :=
  b = [] \/ exists c b', b = c :: b' /\ sep c = true.

Definition left_bounded (sep : ascii -> bool) (a : list ascii) : Prop :=
  a = [] \/ exists a' c, a = a' ++ [c] /\ sep c = true.

Definition delimited (sep : ascii -> bool) (w l : list ascii) : Prop :=
  exists a b, l = a ++ w ++ b /\ left_bounded sep a /\ right_bounded sep b.

Definition is_token (sep : ascii -> bool) (w : list ascii) : Prop :=
  w <> [] /\ forallb (fun c => negb (sep c)) w = true.

(** * Properties *)

Local Open Scope py_scope.

(** ** The evaluation monad *)

Arguments bind : simpl never.
Arguments get : simpl never.
Arguments ret : simpl never.

Lemma value_bind {A B : Type} (m : M A) (k : A -> M B) :
  value_of (bind m k) = value_of (k (value_of m)).
Proof.
  unfold value_of, bind. destruct m as [a t]; simpl.
  destruct (k a); reflexivity.
Qed.

Lemma calls_bind {A B : Type} (m : M A) (k : A -> M B) :
  calls_of (bind m k) = calls_of m ++ calls_of (k (value_of m)).
Proof.
  unfold calls_of, value_of, bind. destruct m as [a t]; simpl.
  destruct (k a); reflexivity.
Qed.

Lemma value_get {A : Type} (a : accessor) (f : Element -> A) (el : Element) :
  value_of (get a f el) = f el.
Proof. reflexivity. Qed.

Lemma calls_get {A : Type} (a : accessor) (f : Element -> A) (el : Element) :
  calls_of (get a f el) = [(el, a)].
Proof. reflexivity. Qed.

Lemma value_ret {A : Type} (a : A) : value_of (ret a) = a.
Proof. reflexivity. Qed.

Lemma calls_ret {A : Type} (a : A) : calls_of (ret a) = [].
Proof. reflexivity. Qed.

Lemma value_if {A : Type} (b : bool) (x y : M A) :
  value_of (if b then x else y) = if b then value_of x else value_of y.
Proof. destruct b; reflexivity. Qed.

Lemma calls_if {A : Type} (b : bool) (x y : M A) :
  calls_of (if b then x else y) = if b then calls_of x else calls_of y.
Proof. destruct b; reflexivity. Qed.

Create Rewrite HintDb py.

#[local] Hint Rewrite @value_bind @calls_bind @value_get @calls_get
  @value_ret @calls_ret @value_if @calls_if : py.

Ltac py_simpl := autorewrite with py in *.

Lemma any_gen_value {A : Type} (f : A -> M bool) (l : list A) :
  value_of (any_gen f l) = existsb (fun x => value_of (f x)) l.
Proof.
  induction l as [|x r IH]; simpl.
  - reflexivity.
  - py_simpl. destruct (value_of (f x)); simpl; [reflexivity | exact IH].
Qed.

Lemma all_gen_value {A : Type} (f : A -> M bool) (l : list A) :
  value_of (all_gen f l) = forallb (fun x => value_of (f x)) l.
Proof.
  induction l as [|x r IH]; simpl.
  - reflexivity.
  - py_simpl. destruct (value_of (f x)); simpl; [exact IH | reflexivity].
Qed.

Lemma sum_gen_value {A : Type} (f : A -> M bool) (l : list A) :
  value_of (sum_gen f l)
  = Z.of_nat (List.length (filter (fun x => value_of (f x)) l)).
Proof.
  induction l as [|x r IH]; [reflexivity|].
  cbn [sum_gen filter]. py_simpl. rewrite IH.
  destruct (value_of (f x)); cbn [List.length]; lia.
Qed.

(** ** Equations of [matches] for the connectives *)

Lemma matches_And (a b : expr) (el : Element) :
  matches (And a b) el = matches a el && matches b el.
Proof.
  unfold matches; cbn [run]. py_simpl. destruct (value_of (run a el)); reflexivity.
Qed.

Lemma calls_And (a b : expr) (el : Element) :
  calls_of (run (And a b) el)
  = calls_of (run a el) ++ (if matches a el then calls_of (run b el) else []).
Proof.
  unfold matches; cbn [run]. py_simpl. destruct (value_of (run a el)); reflexivity.
Qed.

Lemma matches_Or (a b : expr) (el : Element) :
  matches (Or a b) el = matches a el || matches b el.
Proof.
  unfold matches; cbn [run]. py_simpl. destruct (value_of (run a el)); reflexivity.
Qed.

Lemma matches_Not (a : expr) (el : Element) :
  matches (Not a) el = negb (matches a el).
Proof. unfold matches; cbn [run]. py_simpl. reflexivity. Qed.

Lemma matches_AnyAncestors (inside : expr) (el : Element) :
  matches (AnyAncestors inside) el
  = existsb (matches inside) (iter_ancestors el).
Proof. unfold matches; cbn [run]. py_simpl. apply any_gen_value. Qed.

Lemma matches_AnyPreviousSiblings (inside : expr) (el : Element) :
  matches (AnyPreviousSiblings inside) el
  = existsb (matches inside) (iter_previous_siblings el).
Proof. unfold matches; cbn [run]. py_simpl. apply any_gen_value. Qed.

Lemma matches_NextParent (inside : expr) (el : Element) :
  matches (NextParent inside) el
  = match parent el with Some p => matches inside p | None => false end.
Proof.
  unfold matches; cbn [run]. py_simpl. destruct (parent el); reflexivity.
Qed.

Lemma matches_NextPrevious (inside : expr) (el : Element) :
  matches (NextPrevious inside) el
  = match previous el with Some p => matches inside p | None => false end.
Proof.
  unfold matches; cbn [run]. py_simpl. destruct (previous el); reflexivity.
Qed.

Lemma matches_ParentIsNotNone (el : Element) :
  matches ParentIsNotNone el = is_some (parent el).
Proof. reflexivity. Qed.

Lemma matches_PreviousIsNotNone (el : Element) :
  matches PreviousIsNotNone el = is_some (previous el).
Proof. reflexivity. Qed.

(** ** The adapter's sequences and the tree relations *)

Lemma iter_ancestors_eq (el : Element) :
  iter_ancestors el
  = match parent el with
    | Some p => p :: iter_ancestors p
    | None => []
    end.
Proof. destruct el as [[p|] ? ? ? ? ? ? ? ? ? ? ?]; reflexivity. Qed.

Lemma iter_previous_siblings_eq (el : Element) :
  iter_previous_siblings el
  = match previous el with
    | Some s => s :: iter_previous_siblings s
    | None => []
    end.
Proof. destruct el as [? [s|] ? ? ? ? ? ? ? ? ? ?]; reflexivity. Qed.

Lemma in_iter_ancestors (el a : Element) :
  In a (iter_ancestors el) <-> strict_ancestor el a.
Proof.
  split.
  - remember (iter_ancestors el) as l eqn:E.
    revert el E. induction l as [|p l IH]; intros el E H; [destruct H|].
    rewrite iter_ancestors_eq in E.
    destruct (parent el) as [q|] eqn:P; [|discriminate].
    injection E as -> ->.
    destruct H as [<-|H].
    + now apply ancestor_parent.
    + apply ancestor_above with q; [exact P|]. now apply IH.
  - induction 1 as [el p P | el p a P _ IH];
      rewrite iter_ancestors_eq, P; [now left | now right].
Qed.

Lemma in_iter_previous_siblings (el s : Element) :
  In s (iter_previous_siblings el) <-> preceding_sibling el s.
Proof.
  split.
  - remember (iter_previous_siblings el) as l eqn:E.
    revert el E. induction l as [|p l IH]; intros el E H; [destruct H|].
    rewrite iter_previous_siblings_eq in E.
    destruct (previous el) as [q|] eqn:P; [|discriminate].
    injection E as -> ->.
    destruct H as [<-|H].
    + now apply sibling_previous.
    + apply sibling_before with q; [exact P|]. now apply IH.
  - induction 1 as [el p P | el p a P _ IH];
      rewrite iter_previous_siblings_eq, P; [now left | now right].
Qed.

Lemma some_ancestor (f : Element -> bool) (el : Element) :
  existsb f (iter_ancestors el) = true
  <-> exists a, strict_ancestor el a /\ f a = true.
Proof.
  rewrite existsb_exists. split; intros [a [H1 H2]]; exists a; split; auto;
    now apply in_iter_ancestors.
Qed.

Lemma some_preceding_sibling (f : Element -> bool) (el : Element) :
  existsb f (iter_previous_siblings el) = true
  <-> exists s, preceding_sibling el s /\ f s = true.
Proof.
  rewrite existsb_exists. split; intros [a [H1 H2]]; exists a; split; auto;
    now apply in_iter_previous_siblings.
Qed.

(** ** Combined selectors *)

Section Combined.

Variable parse_nth : list Token -> option (Z * Z).

Lemma combined_general (left_ right_ : Selector) (combinator : string)
  (l r : expr) :
  _compile_node parse_nth left_ = Ok l ->
  is_0 l = false -> is_1 l = false ->
  _compile_node parse_nth right_ = Ok r ->
  In combinator combinators ->
  _compile_node parse_nth (CombinedSelector left_ combinator right_)
  = Ok (if is_0 r then Zero
        else if is_1 r then search combinator l
        else And r (search combinator l)).
Proof.
  intros Hl H0 H1 Hr Hc. cbn [_compile_node]. rewrite Hl. cbn [rbind].
  rewrite H0, H1.
  destruct Hc as [<-|[<-|[<-|[<-|[]]]]]; cbn; rewrite Hr; cbn;
    destruct (is_0 r), (is_1 r); reflexivity.
Qed.

Lemma search_matches (combinator : string) (l : expr) (el : Element) :
  In combinator combinators ->
  matches (search combinator l) el = true
  <-> combinator_relation combinator (matches l) el.
Proof.
  intros Hc.
  destruct Hc as [<-|[<-|[<-|[<-|[]]]]]; cbn.
  - rewrite matches_AnyAncestors. apply some_ancestor.
  - rewrite matches_NextParent. destruct (parent el) as [p|].
    + split; [intros H; now exists p | intros [q [[= <-] H]]; exact H].
    + split; [discriminate | intros [q [[=] _]]].
  - rewrite matches_NextPrevious. destruct (previous el) as [p|].
    + split; [intros H; now exists p | intros [q [[= <-] H]]; exact H].
    + split; [discriminate | intros [q [[=] _]]].
  - rewrite matches_AnyPreviousSiblings. apply some_preceding_sibling.
Qed.

Lemma search_calls (combinator : string) (l : expr) (el : Element) :
  In combinator combinators ->
  exists nav rest,
    search_call combinator = Some nav
    /\ calls_of (run (search combinator l) el) = (el, nav) :: rest.
Proof.
  intros Hc.
  destruct Hc as [<-|[<-|[<-|[<-|[]]]]]; cbn [search search_call String.eqb
    Ascii.eqb Bool.eqb run]; py_simpl; eexists; eexists; split;
    try reflexivity; cbn [app]; reflexivity.
Qed.

(** C1.  A combined selector whose two sides compile to general
    expressions, with one of the four combinators, compiles to a matcher
    that is true on [el] exactly when the right-hand compound matches [el]
    and the combinator's relation holds for the left-hand test (some strict
    ancestor, the parent, the previous sibling, some preceding sibling).
    The calls of the right-hand test come first; the left-hand search enters
    the tree after them, and only when the right-hand test was true. *)
Theorem combined_general_right_to_left
  (left_ right_ : Selector) (combinator : string) (l r : expr) :
  _compile_node parse_nth left_ = Ok l ->
  is_0 l = false -> is_1 l = false ->
  _compile_node parse_nth right_ = Ok r ->
  is_0 r = false -> is_1 r = false ->
  In combinator combinators ->
  exists e,
    _compile_node parse_nth (CombinedSelector left_ combinator right_) = Ok e
    /\ forall el,
         (matches e el = true
          <-> matches r el = true
              /\ combinator_relation combinator (matches l) el)
         /\ exists nav rest,
              search_call combinator = Some nav
              /\ calls_of (run e el)
                 = calls_of (run r el)
                   ++ (if matches r el then (el, nav) :: rest else []).
Proof.
  intros Hl Hl0 Hl1 Hr Hr0 Hr1 Hc.
  exists (And r (search combinator l)). split.
  - rewrite (combined_general _ _ _ _ _ Hl Hl0 Hl1 Hr Hc), Hr0, Hr1.
    reflexivity.
  - intros el. split.
    + rewrite matches_And, andb_true_iff, (search_matches _ _ _ Hc).
      reflexivity.
    + destruct (search_calls combinator l el Hc) as [nav [rest [H1 H2]]].
      exists nav, rest. split; [exact H1|].
      rewrite calls_And, H2. reflexivity.
Qed.

End Combined.

Lemma combined_general_right_to_left_witness :
  exists e,
    _compile_node Fixture.demo_parse_nth
      (CombinedSelector (Fixture.compound "a") " " (Fixture.compound "b"))
    = Ok e
    /\ (matches e Fixture.C = true
        <-> matches (LocalNameEq "b") Fixture.C = true
            /\ combinator_relation " " (matches (LocalNameEq "a")) Fixture.C).
Proof.
  destruct (combined_general_right_to_left Fixture.demo_parse_nth
              (Fixture.compound "a") (Fixture.compound "b") " "
              (LocalNameEq "a") (LocalNameEq "b"))
    as [e [H1 H2]]; try reflexivity.
  - simpl; auto.
  - exists e. split; [exact H1 | apply H2].
Defined.

(** The three-level tree: ["a b"] matches [C] (its ancestor [A] is an [a]);
    ["a > b"] does not (its parent [B] is not). *)
Example descendant_on_three_levels :
  exists e,
    _compile_node Fixture.demo_parse_nth
      (CombinedSelector (Fixture.compound "a") " " (Fixture.compound "b"))
    = Ok e
    /\ run e Fixture.C
       = (true, [(Fixture.C, a_local_name); (Fixture.C, a_iter_ancestors);
                 (Fixture.B, a_local_name); (Fixture.A, a_local_name)]).
Proof. eexists; split; reflexivity. Qed.

Example child_on_three_levels :
  exists e,
    _compile_node Fixture.demo_parse_nth
      (CombinedSelector (Fixture.compound "a") ">" (Fixture.compound "b"))
    = Ok e
    /\ run e Fixture.C
       = (false, [(Fixture.C, a_local_name); (Fixture.C, a_parent);
                  (Fixture.B, a_local_name)])
    /\ run e Fixture.B = (false, [(Fixture.B, a_local_name)]).
Proof. eexists; split; [|split]; reflexivity. Qed.

(** ** [CompiledSelector]: the flag and the matcher *)

Lemma record_hint_keeps (self : CompiledSelector.t) (s : Selector) :
  CompiledSelector.never_matches (CompiledSelector.record_hint self s)
  = CompiledSelector.never_matches self
  /\ CompiledSelector.test (CompiledSelector.record_hint self s)
     = CompiledSelector.test self
  /\ CompiledSelector.specificity (CompiledSelector.record_hint self s)
     = CompiledSelector.specificity self
  /\ CompiledSelector.pseudo_element (CompiledSelector.record_hint self s)
     = CompiledSelector.pseudo_element self.
Proof. destruct s; repeat split; reflexivity. Qed.

Lemma hints_loop_keeps (l : list Selector) (self : CompiledSelector.t) :
  CompiledSelector.never_matches
    (fold_left CompiledSelector.record_hint l self)
  = CompiledSelector.never_matches self
  /\ CompiledSelector.test (fold_left CompiledSelector.record_hint l self)
     = CompiledSelector.test self.
Proof.
  revert self. induction l as [|s l IH]; intros self; cbn [fold_left].
  - split; reflexivity.
  - destruct (IH (CompiledSelector.record_hint self s)) as [-> ->].
    destruct (record_hint_keeps self s) as [-> [-> _]]. split; reflexivity.
Qed.

Lemma is_0_true (e : expr) : is_0 e = true <-> e = Zero.
Proof. destruct e; cbn; split; intros H; try discriminate; reflexivity. Qed.

Lemma is_1_true (e : expr) : is_1 e = true <-> e = One.
Proof. destruct e; cbn; split; intros H; try discriminate; reflexivity. Qed.

(** The shape of a successful construction. *)
Lemma CompiledSelector_init_ok (parse_nth : list Token -> option (Z * Z))
  (parsed_selector : ParsedSelector) (c : CompiledSelector.t) :
  CompiledSelector_init parse_nth parsed_selector = Ok c ->
  exists source simple_selectors,
    _compile_node parse_nth (parsed_tree parsed_selector) = Ok source
    /\ CompiledSelector.simple_selectors_of
         (CompiledSelector.subject (parsed_tree parsed_selector))
       = Ok simple_selectors
    /\ c = fold_left CompiledSelector.record_hint simple_selectors
             (CompiledSelector.mk (is_0 source) (run source)
                (parsed_specificity parsed_selector)
                (parsed_pseudo_element parsed_selector)
                None None None None).
Proof.
  unfold CompiledSelector_init. intros H.
  destruct (_compile_node parse_nth (parsed_tree parsed_selector))
    as [source|] eqn:Hs; [|discriminate].
  cbn [rbind] in H.
  destruct (CompiledSelector.simple_selectors_of _) as [ss|] eqn:Hss;
    [|discriminate].
  cbn [rbind] in H. injection H as <-.
  exists source, ss. repeat split; reflexivity.
Qed.

(** C2.  The flag [never_matches] of a compiled selector is set exactly when
    the expression built for its tree is the literal ['0'], and a selector
    with the flag set has a matcher that returns false on every element
    (without a single call on it). *)
Theorem never_matches_iff_literal_false
  (parse_nth : list Token -> option (Z * Z))
  (parsed_selector : ParsedSelector) (c : CompiledSelector.t) :
  CompiledSelector_init parse_nth parsed_selector = Ok c ->
  (CompiledSelector.never_matches c = true
   <-> _compile_node parse_nth (parsed_tree parsed_selector) = Ok Zero)
  /\ (CompiledSelector.never_matches c = true ->
      forall el, CompiledSelector.test c el = (false, [])).
Proof.
  intros H.
  destruct (CompiledSelector_init_ok _ _ _ H) as [source [ss [Hs [_ ->]]]].
  destruct (hints_loop_keeps ss
              (CompiledSelector.mk (is_0 source) (run source)
                 (parsed_specificity parsed_selector)
                 (parsed_pseudo_element parsed_selector)
                 None None None None)) as [-> ->].
  cbn [CompiledSelector.never_matches CompiledSelector.test].
  rewrite Hs, is_0_true. split.
  - split; [intros -> | intros [= ->]]; reflexivity.
  - intros -> el. reflexivity.
Qed.

Lemma never_matches_iff_literal_false_witness :
  exists c,
    CompiledSelector_init Fixture.demo_parse_nth
      (mkParsed (CompoundSelector [PseudoClassSelector "hover"]) (0, 1, 0)
         None) = Ok c
    /\ CompiledSelector.never_matches c = true
    /\ CompiledSelector.test c Fixture.C = (false, []).
Proof.
  eexists. split; [reflexivity|].
  pose proof (never_matches_iff_literal_false Fixture.demo_parse_nth
                (mkParsed (CompoundSelector [PseudoClassSelector "hover"])
                   (0, 1, 0) None) _ eq_refl) as [H1 H2].
  split; [apply H1; reflexivity | apply H2, H1; reflexivity].
Defined.

(** ** The [nth-*] pseudo-classes *)

Lemma div_eucl_div_mod (x a : Z) : Z.div_eucl x a = ((x / a)%Z, (x mod a)%Z).
Proof. unfold Z.div, Z.modulo. destruct (Z.div_eucl x a); reflexivity. Qed.

(** The test [r == 0 and n >= 0] on [divmod(x - B, a)] solves
    [x = a*n + B] for a natural [n]. *)
Lemma divmod_solves (x B a : Z) :
  a <> 0%Z ->
  ((x - B) mod a =? 0)%Z && ((x - B) / a >=? 0)%Z = true
  <-> exists n : Z, (0 <= n)%Z /\ x = (a * n + B)%Z.
Proof.
  intros Ha. rewrite andb_true_iff, Z.eqb_eq, Z.geb_le. split.
  - intros [Hr Hq]. exists ((x - B) / a)%Z. split; [exact Hq|].
    pose proof (Z.div_mod (x - B) a Ha) as E. rewrite Hr in E. lia.
  - intros [n [Hn ->]].
    replace (a * n + B - B)%Z with (n * a)%Z by lia.
    rewrite Z.mod_mul, Z.div_mul by exact Ha. split; [reflexivity | exact Hn].
Qed.

Lemma matches_CountEq (c : count) (B : Z) (el : Element) :
  matches (CountEq c B) el = (value_of (run_count c el) =? B)%Z.
Proof. unfold matches; cbn [run]. py_simpl. reflexivity. Qed.

Lemma matches_NthDivmod (c : count) (B a : Z) (el : Element) :
  matches (NthDivmod c B a) el
  = let x := value_of (run_count c el) in
    (((x - B) mod a =? 0) && ((x - B) / a >=? 0))%Z.
Proof.
  unfold matches; cbn [run]. py_simpl. rewrite div_eucl_div_mod.
  reflexivity.
Qed.

Lemma value_same_tag (el : Element) (s : EtreeElement) :
  value_of (same_tag el s) = same_tag_as el s.
Proof. reflexivity. Qed.

Lemma filter_ext_length {A : Type} (f g : A -> bool) (l : list A) :
  (forall x, f x = g x) ->
  List.length (filter f l) = List.length (filter g l).
Proof.
  intros H. induction l as [|x l IH]; cbn; [reflexivity|].
  rewrite H. destruct (g x); cbn; now rewrite IH.
Qed.

(** On a well-placed element the count expression is the number of
    relevant siblings. *)
Lemma run_count_relevant (name : string) (el : Element) :
  In name nth_names ->
  well_placed el ->
  value_of (run_count (nth_count name) el)
  = Z.of_nat (List.length (relevant_siblings name el)).
Proof.
  unfold well_placed, relevant_siblings, preceding, following.
  intros Hn Hw.
  destruct Hn as [<-|[<-|[<-|[<-|[]]]]]; cbn [nth_count String.eqb Ascii.eqb
    Bool.eqb run_count]; unfold siblings_before, siblings_after; py_simpl.
  - rewrite length_firstn. lia.
  - rewrite length_skipn. lia.
  - rewrite sum_gen_value. reflexivity.
  - rewrite sum_gen_value. reflexivity.
Qed.

Lemma compile_nth (parse_nth : list Token -> option (Z * Z))
  (name : string) (arguments : list Token) (a b : Z) :
  In name nth_names ->
  parse_nth arguments = Some (a, b) ->
  _compile_node parse_nth (FunctionalPseudoClassSelector name arguments)
  = Ok (if (a =? 0)%Z then CountEq (nth_count name) (b - 1)
        else NthDivmod (nth_count name) (b - 1) a).
Proof.
  intros Hn Hp.
  destruct Hn as [<-|[<-|[<-|[<-|[]]]]]; cbn; rewrite Hp;
    destruct (a =? 0)%Z; reflexivity.
Qed.

(** C3.  An [nth-*] pseudo-class whose argument parses to [(a, b)] compiles
    to a matcher that, with [x] the value of its count expression on the
    element (on a well-placed element: the number of preceding, following,
    same-tag preceding or same-tag following siblings), is true exactly when
    [x = a*n + (b - 1)] has a solution [n >= 0]: for [a = 0] when
    [x = b - 1], otherwise when [x - (b - 1)] divided by [a] leaves
    remainder zero and a quotient that is not negative. *)
Theorem nth_matches_linear_equation
  (parse_nth : list Token -> option (Z * Z))
  (name : string) (arguments : list Token) (a b : Z) :
  In name nth_names ->
  parse_nth arguments = Some (a, b) ->
  exists e,
    _compile_node parse_nth (FunctionalPseudoClassSelector name arguments)
    = Ok e
    /\ forall el,
         let x := value_of (run_count (nth_count name) el) in
         (well_placed el ->
          x = Z.of_nat (List.length (relevant_siblings name el)))
         /\ (matches e el = true
             <-> exists n : Z, (0 <= n)%Z /\ x = (a * n + (b - 1))%Z)
         /\ (a = 0%Z -> (matches e el = true <-> x = (b - 1)%Z))
         /\ (a <> 0%Z ->
             (matches e el = true
              <-> ((x - (b - 1)) mod a = 0)%Z
                  /\ (0 <= (x - (b - 1)) / a)%Z)).
Proof.
  intros Hn Hp. eexists. split; [exact (compile_nth _ _ _ _ _ Hn Hp)|].
  intros el x. split; [intros Hw; now apply run_count_relevant|].
  destruct (Z.eqb_spec a 0) as [->|Ha].
  - rewrite matches_CountEq, Z.eqb_eq. fold x. split; [|split].
    + split; [intros ->; exists 0%Z; lia | intros [n [_ ->]]; lia].
    + intros _. reflexivity.
    + intros H. now elim H.
  - rewrite matches_NthDivmod. fold x. cbv zeta. split; [|split].
    + now apply divmod_solves.
    + intros H; now elim Ha.
    + intros _. now rewrite andb_true_iff, Z.eqb_eq, Z.geb_le.
Qed.

Lemma nth_matches_linear_equation_witness :
  exists e,
    _compile_node Fixture.demo_parse_nth
      (FunctionalPseudoClassSelector "nth-child" [mkToken "ident" "odd"])
    = Ok e
    /\ (matches e Fixture.li2 = true
        <-> exists n : Z, (0 <= n)%Z /\ 2%Z = (2 * n + (1 - 1))%Z).
Proof.
  destruct (nth_matches_linear_equation Fixture.demo_parse_nth "nth-child"
              [mkToken "ident" "odd"] 2 1) as [e [H1 H2]].
  - simpl; auto.
  - reflexivity.
  - exists e. split; [exact H1|]. exact (proj1 (proj2 (H2 Fixture.li2))).
Defined.

(** [:nth-child(2n+1)] on a row of three: positions 0 and 2.
    [:nth-child(3)]: position 2 only. *)
Example nth_child_odd :
  exists e,
    _compile_node Fixture.demo_parse_nth
      (FunctionalPseudoClassSelector "nth-child" [mkToken "ident" "odd"])
    = Ok e
    /\ map (matches e) [Fixture.li0; Fixture.p1; Fixture.li2]
       = [true; false; true].
Proof. eexists; split; reflexivity. Qed.

Example nth_child_3 :
  exists e,
    _compile_node Fixture.demo_parse_nth
      (FunctionalPseudoClassSelector "nth-child" [mkToken "number" "3"])
    = Ok e
    /\ map (matches e) [Fixture.li0; Fixture.p1; Fixture.li2]
       = [false; false; true].
Proof. eexists; split; reflexivity. Qed.

(** ** Combined selectors: the literal cases *)

Section Simplification.

Variable parse_nth : list Token -> option (Z * Z).

(** A left side that never matches decides the whole selector, whatever the
    combinator and the right side are. *)
Lemma combined_left_false (left_ right_ : Selector) (combinator : string) :
  _compile_node parse_nth left_ = Ok Zero ->
  _compile_node parse_nth (CombinedSelector left_ combinator right_)
  = Ok Zero.
Proof. intros Hl. cbn [_compile_node]. rewrite Hl. reflexivity. Qed.

Lemma combined_left_true (left_ right_ : Selector) (combinator : string)
  (r : expr) :
  _compile_node parse_nth left_ = Ok One ->
  _compile_node parse_nth right_ = Ok r ->
  In combinator combinators ->
  _compile_node parse_nth (CombinedSelector left_ combinator right_)
  = Ok (and_right r (existence combinator)).
Proof.
  intros Hl Hr Hc. cbn [_compile_node]. rewrite Hl. cbn [rbind is_0 is_1].
  destruct Hc as [<-|[<-|[<-|[<-|[]]]]]; cbn; rewrite Hr; cbn;
    unfold and_right; destruct (is_0 r), (is_1 r); reflexivity.
Qed.

Lemma combined_compiles (left_ right_ : Selector) (combinator : string)
  (l r : expr) :
  _compile_node parse_nth left_ = Ok l ->
  _compile_node parse_nth right_ = Ok r ->
  In combinator combinators ->
  _compile_node parse_nth (CombinedSelector left_ combinator right_)
  = Ok (if is_0 l then Zero else and_right r (left_test combinator l)).
Proof.
  intros Hl Hr Hc. unfold left_test.
  destruct (is_0 l) eqn:H0.
  - apply is_0_true in H0. subst l. now apply combined_left_false.
  - destruct (is_1 l) eqn:H1.
    + apply is_1_true in H1. subst l. now apply combined_left_true.
    + now apply combined_general.
Qed.

(** Outside the four combinators a combined selector compiles only when its
    left side never matches. *)
Lemma combined_unknown_combinator (left_ right_ : Selector)
  (combinator : string) (l : expr) :
  _compile_node parse_nth left_ = Ok l ->
  is_0 l = false ->
  ~ In combinator combinators ->
  _compile_node parse_nth (CombinedSelector left_ combinator right_)
  = Raise (SelectorError ["Unknown combinator"; combinator]).
Proof.
  intros Hl H0 Hc. cbn [_compile_node]. rewrite Hl. cbn [rbind]. rewrite H0.
  assert (E : forall c, In c combinators -> String.eqb combinator c = false).
  { intros c Hin. apply String.eqb_neq. intros ->. now apply Hc. }
  unfold PyStr.mem. cbn [existsb].
  rewrite !E by (cbn; auto 6).
  cbn. destruct (is_1 l); reflexivity.
Qed.

Lemma matches_existence (combinator : string) (el : Element) :
  matches (existence combinator) el = has_neighbour combinator el.
Proof.
  unfold existence, has_neighbour.
  destruct (PyStr.mem combinator [" "; ">"]); reflexivity.
Qed.

Lemma matches_and_right (r x : expr) (el : Element) :
  matches (and_right r x) el = matches r el && matches x el.
Proof.
  unfold and_right. destruct (is_0 r) eqn:H0.
  - apply is_0_true in H0. subst r. reflexivity.
  - destruct (is_1 r) eqn:H1.
    + apply is_1_true in H1. subst r. reflexivity.
    + apply matches_And.
Qed.

Lemma has_parent_iff (el : Element) :
  is_some (parent el) = true <-> exists a, strict_ancestor el a.
Proof.
  split.
  - destruct (parent el) as [p|] eqn:P; [|discriminate].
    intros _. exists p. now apply ancestor_parent.
  - intros [a H]. destruct H as [el p P | el p a P _]; now rewrite P.
Qed.

Lemma has_previous_iff (el : Element) :
  is_some (previous el) = true <-> exists s, preceding_sibling el s.
Proof.
  split.
  - destruct (previous el) as [p|] eqn:P; [|discriminate].
    intros _. exists p. now apply sibling_previous.
  - intros [a H]. destruct H as [el p P | el p a P _]; now rewrite P.
Qed.

(** Whatever the state of the left side, the left-hand test decides the
    combinator's relation. *)
Lemma left_test_matches (combinator : string) (l : expr) (el : Element) :
  In combinator combinators ->
  matches (left_test combinator l) el = true
  <-> combinator_relation combinator (matches l) el.
Proof.
  intros Hc. unfold left_test. destruct (is_0 l) eqn:H0.
  - apply is_0_true in H0. subst l.
    destruct Hc as [<-|[<-|[<-|[<-|[]]]]]; cbn;
      (split; [discriminate | intros [a [_ H]]; discriminate H]).
  - destruct (is_1 l) eqn:H1; [|now apply search_matches].
    apply is_1_true in H1. subst l. rewrite matches_existence.
    destruct Hc as [<-|[<-|[<-|[<-|[]]]]]; cbn.
    + rewrite has_parent_iff.
      split; intros [a H]; exists a; [now split | apply H].
    + destruct (parent el) as [p|]; cbn.
      * split; [intros _; now exists p | reflexivity].
      * split; [discriminate | intros [p [[=] _]]].
    + destruct (previous el) as [p|]; cbn.
      * split; [intros _; now exists p | reflexivity].
      * split; [discriminate | intros [p [[=] _]]].
    + rewrite has_previous_iff.
      split; intros [a H]; exists a; [now split | apply H].
Qed.

(** C4.  For a combined selector whose left side compiles: a left side
    compiled to ['0'] gives ['0'], whatever the rest; and when the right side
    compiles too and the combinator is one of the four, a left side compiled
    to ['1'] gives the existence check (a parent for the descendant and child
    combinators, a previous sibling for the two sibling combinators)
    conjoined with the right side; a right side compiled to ['0'] gives
    ['0']; a right side compiled to ['1'] gives the left-hand test alone. *)
Theorem combined_three_state
  (left_ right_ : Selector) (combinator : string) (l : expr) :
  _compile_node parse_nth left_ = Ok l ->
  (l = Zero ->
   _compile_node parse_nth (CombinedSelector left_ combinator right_)
   = Ok Zero)
  /\ forall r,
       _compile_node parse_nth right_ = Ok r ->
       In combinator combinators ->
       exists e,
         _compile_node parse_nth (CombinedSelector left_ combinator right_)
         = Ok e
         /\ (l = One ->
             e = and_right r (existence combinator)
             /\ forall el,
                  matches e el
                  = matches r el && has_neighbour combinator el)
         /\ (r = Zero -> e = Zero)
         /\ (r = One ->
             e = left_test combinator l
             /\ forall el,
                  matches e el = true
                  <-> combinator_relation combinator (matches l) el).
Proof.
  intros Hl. split.
  - intros ->. now apply combined_left_false.
  - intros r Hr Hc. eexists.
    split; [exact (combined_compiles _ _ _ _ _ Hl Hr Hc)|].
    split; [|split].
    + intros ->. cbn [is_0 is_1 left_test]. split; [reflexivity|].
      intros el. now rewrite matches_and_right, matches_existence.
    + intros ->. destruct (is_0 l); reflexivity.
    + intros ->. unfold and_right; cbn [is_0 is_1].
      destruct (is_0 l) eqn:H0.
      * unfold left_test. rewrite H0. split; [reflexivity|].
        intros el. pose proof (left_test_matches combinator l el Hc) as H.
        unfold left_test in H. rewrite H0 in H. exact H.
      * split; [reflexivity|]. intros el. now apply left_test_matches.
Qed.

End Simplification.

Lemma combined_three_state_witness :
  exists e,
    _compile_node Fixture.demo_parse_nth
      (CombinedSelector (CompoundSelector []) ">" (Fixture.compound "b"))
    = Ok e
    /\ e = And (LocalNameEq "b") ParentIsNotNone.
Proof.
  destruct (combined_three_state Fixture.demo_parse_nth
              (CompoundSelector []) (Fixture.compound "b") ">" One eq_refl)
    as [_ H].
  destruct (H (LocalNameEq "b") eq_refl) as [e [H1 [H2 _]]].
  - simpl; auto.
  - exists e. split; [exact H1 | exact (proj1 (H2 eq_refl))].
Defined.

(** ** The hints of a compiled selector *)

Lemma first_of_app (kind : Selector -> option string) (l1 l2 : list Selector) :
  first_of kind (l1 ++ l2)
  = match first_of kind l1 with
    | Some v => Some v
    | None => first_of kind l2
    end.
Proof.
  induction l1 as [|s l1 IH]; cbn; [reflexivity|].
  destruct (kind s); [reflexivity | exact IH].
Qed.

Lemma last_of_cons (kind : Selector -> option string) (s : Selector)
  (l : list Selector) :
  last_of kind (s :: l)
  = match last_of kind l with
    | Some v => Some v
    | None => kind s
    end.
Proof.
  unfold last_of. cbn [rev]. rewrite first_of_app. cbn.
  destruct (first_of kind (rev l)); [reflexivity|].
  destruct (kind s); reflexivity.
Qed.

Lemma hints_loop (l : list Selector) (self : CompiledSelector.t) :
  let c := fold_left CompiledSelector.record_hint l self in
  CompiledSelector.id c
  = or_else (last_of ident_of l) (CompiledSelector.id self)
  /\ CompiledSelector.class_name c
     = or_else (last_of class_name_of l) (CompiledSelector.class_name self)
  /\ CompiledSelector.local_name c
     = or_else (last_of local_name_of l) (CompiledSelector.local_name self)
  /\ CompiledSelector.namespace c
     = or_else (last_of namespace_of l) (CompiledSelector.namespace self).
Proof.
  revert self. induction l as [|s l IH]; intros self.
  - repeat split; reflexivity.
  - cbn [fold_left]. cbv zeta.
    destruct (IH (CompiledSelector.record_hint self s)) as [-> [-> [-> ->]]].
    rewrite !last_of_cons.
    destruct (last_of ident_of l), (last_of class_name_of l),
      (last_of local_name_of l), (last_of namespace_of l);
      destruct s; repeat split; reflexivity.
Qed.

(** C5, as the code has it.  The hints of a compiled selector come from the
    direct simple selectors of the subject compound alone (the tree itself,
    or the right side of its outermost combinator), and for each kind the
    value recorded is that of the last simple selector of the kind. *)
Theorem hints_from_subject_compound
  (parse_nth : list Token -> option (Z * Z))
  (parsed_selector : ParsedSelector) (c : CompiledSelector.t) :
  CompiledSelector_init parse_nth parsed_selector = Ok c ->
  exists simple_selectors,
    CompiledSelector.simple_selectors_of
      (CompiledSelector.subject (parsed_tree parsed_selector))
    = Ok simple_selectors
    /\ CompiledSelector.id c = last_of ident_of simple_selectors
    /\ CompiledSelector.class_name c = last_of class_name_of simple_selectors
    /\ CompiledSelector.local_name c = last_of local_name_of simple_selectors
    /\ CompiledSelector.namespace c = last_of namespace_of simple_selectors.
Proof.
  intros H.
  destruct (CompiledSelector_init_ok _ _ _ H) as [source [ss [_ [Hss ->]]]].
  exists ss. split; [exact Hss|].
  destruct (hints_loop ss
              (CompiledSelector.mk (is_0 source) (run source)
                 (parsed_specificity parsed_selector)
                 (parsed_pseudo_element parsed_selector)
                 None None None None)) as [-> [-> [-> ->]]].
  cbn. unfold or_else.
  destruct (last_of ident_of ss), (last_of class_name_of ss),
    (last_of local_name_of ss), (last_of namespace_of ss);
    repeat split; reflexivity.
Qed.

(** [div.foo#bar] *)
Lemma hints_from_subject_compound_witness :
  exists c,
    CompiledSelector_init Fixture.demo_parse_nth
      (mkParsed
         (CompoundSelector
            [LocalNameSelector "div"; ClassSelector "foo"; IDSelector "bar"])
         (1, 1, 1) None) = Ok c
    /\ CompiledSelector.id c = Some "bar"
    /\ CompiledSelector.class_name c = Some "foo"
    /\ CompiledSelector.local_name c = Some "div"
    /\ CompiledSelector.namespace c = None.
Proof.
  eexists. split; [reflexivity|].
  destruct (hints_from_subject_compound Fixture.demo_parse_nth
              (mkParsed
                 (CompoundSelector
                    [LocalNameSelector "div"; ClassSelector "foo";
                     IDSelector "bar"])
                 (1, 1, 1) None) _ eq_refl) as [ss [Hss H]].
  injection Hss as <-. exact H.
Defined.

(** C5, as the specification words it, fails: in [#a#b] the first ID
    selector is [#a] and the recorded id is [b]. *)
Lemma hints_first_of_kind_counterexample :
  exists c,
    CompiledSelector_init Fixture.demo_parse_nth
      (mkParsed (CompoundSelector [IDSelector "a"; IDSelector "b"])
         (2, 0, 0) None) = Ok c
    /\ first_of ident_of [IDSelector "a"; IDSelector "b"] = Some "a"
    /\ CompiledSelector.id c = Some "b"
    /\ CompiledSelector.id c
       <> first_of ident_of [IDSelector "a"; IDSelector "b"].
Proof.
  eexists. split; [reflexivity|]. repeat split. discriminate.
Qed.

Example hints_skip_the_left_side :
  exists c,
    CompiledSelector_init Fixture.demo_parse_nth
      (mkParsed
         (CombinedSelector
            (CompoundSelector [LocalNameSelector "ul"; IDSelector "menu"])
            ">"
            (CompoundSelector
               [LocalNameSelector "li";
                NegationSelector [ClassSelector "off"]]))
         (1, 1, 2) None) = Ok c
    /\ CompiledSelector.id c = None
    /\ CompiledSelector.class_name c = None
    /\ CompiledSelector.local_name c = Some "li".
Proof. eexists. repeat split. Qed.

Lemma compile_compound_eq (parse_nth : list Token -> option (Z * Z))
  (simple_selectors : list Selector) :
  _compile_node parse_nth (CompoundSelector simple_selectors)
  = rbind (map_result (_compile_node parse_nth) simple_selectors)
      (fun compiled => Ok (compound_test compiled)).
Proof. reflexivity. Qed.

(** ** Attribute selectors in any namespace *)

Lemma map_result_raises {A B : Type} (f : A -> result B) (x : A) (e : exn)
  (before after : list A) :
  f x = Raise e ->
  exists e', map_result f (before ++ x :: after) = Raise e'.
Proof.
  intros Hx. induction before as [|y before [e' IH]]; cbn.
  - rewrite Hx. now exists e.
  - destruct (f y) as [b|e0]; [|now exists e0].
    rewrite IH. now exists e'.
Qed.

(** C6.  An attribute selector whose namespace is [None] does not compile:
    [_compile_node] raises [NotImplementedError] on it, whatever its name,
    operator and operand; a compound that contains one raises too, and no
    [CompiledSelector] is built from such a compound. *)
Theorem any_namespace_attribute_raises
  (parse_nth : list Token -> option (Z * Z))
  (name : string) (operator : option string) (operand : string) :
  _compile_node parse_nth (AttributeSelector None name operator operand)
  = Raise NotImplementedError
  /\ forall (before after : list Selector) (specificity : nat * nat * nat)
            (pseudo_element : option string),
       (exists e,
          _compile_node parse_nth
            (CompoundSelector
               (before ++ AttributeSelector None name operator operand
                  :: after))
          = Raise e)
       /\ (exists e,
             CompiledSelector_init parse_nth
               (mkParsed
                  (CompoundSelector
                     (before ++ AttributeSelector None name operator operand
                        :: after))
                  specificity pseudo_element)
             = Raise e).
Proof.
  split; [reflexivity|]. intros before after sp pe.
  destruct (map_result_raises (_compile_node parse_nth)
              (AttributeSelector None name operator operand)
              NotImplementedError before after eq_refl) as [e He].
  split; exists e.
  - rewrite compile_compound_eq, He. reflexivity.
  - unfold CompiledSelector_init. cbn [parsed_tree].
    rewrite compile_compound_eq, He. reflexivity.
Qed.

(** ** Pseudo-classes of a live document *)

(** C8.  [:visited], [:hover], [:active], [:focus] and [:target] compile to
    the literal ['0']; its evaluation returns false on every element and
    makes no call on it. *)
Theorem interactive_pseudo_classes_never_match
  (parse_nth : list Token -> option (Z * Z)) (name : string) :
  In name interactive ->
  _compile_node parse_nth (PseudoClassSelector name) = Ok Zero
  /\ (forall el, run Zero el = (false, []))
  /\ forall (specificity : nat * nat * nat) (pseudo_element : option string),
     exists c,
       CompiledSelector_init parse_nth
         (mkParsed (CompoundSelector [PseudoClassSelector name])
            specificity pseudo_element) = Ok c
       /\ CompiledSelector.never_matches c = true
       /\ forall el, CompiledSelector.test c el = (false, []).
Proof.
  intros Hn.
  assert (H : _compile_node parse_nth (PseudoClassSelector name) = Ok Zero)
    by (destruct Hn as [<-|[<-|[<-|[<-|[<-|[]]]]]]; reflexivity).
  split; [exact H|]. split; [reflexivity|].
  intros sp pe. eexists. unfold CompiledSelector_init.
  cbn [parsed_tree]. rewrite compile_compound_eq. cbn [map_result].
  rewrite H. cbn. repeat split.
Qed.

Lemma interactive_pseudo_classes_never_match_witness :
  _compile_node Fixture.demo_parse_nth (PseudoClassSelector "hover") = Ok Zero
  /\ run Zero Fixture.C = (false, []).
Proof.
  destruct (interactive_pseudo_classes_never_match Fixture.demo_parse_nth
              "hover") as [H1 [H2 _]].
  - simpl; auto.
  - split; [exact H1 | apply H2].
Defined.

(** ** Pseudo-classes restricted to XHTML elements *)

Lemma prefix_append (s t : string) : String.prefix s (s ++ t)%string = true.
Proof.
  induction s as [|c s IH]; cbn.
  - now destruct t.
  - destruct (Ascii.ascii_dec c c) as [_|N]; [exact IH | now elim N].
Qed.

Lemma mem_In (y : string) (xs : list string) :
  PyStr.mem y xs = true <-> In y xs.
Proof.
  unfold PyStr.mem. rewrite existsb_exists. split.
  - intros [x [Hx E]]. apply String.eqb_eq in E. now subst.
  - intros H. exists y. split; [exact H | apply String.eqb_refl].
Qed.

Lemma xhtml_tags_prefix (t : string) (local_names : list string) :
  In t (xhtml_tags local_names) -> PyStr.startswith t xhtml = true.
Proof.
  unfold xhtml_tags. rewrite in_map_iff. intros [n [<- _]].
  apply prefix_append.
Qed.

Lemma run_html_tag_eq (local_names : list string) (el : Element) :
  run (html_tag_eq local_names) el
  = (PyStr.mem (tag (etree_element el)) (xhtml_tags local_names),
     [(el, a_etree_element)]).
Proof.
  destruct local_names as [|n [|m r]]; try reflexivity.
  cbn. now rewrite orb_false_r.
Qed.

Lemma matches_html_tag_eq (local_names : list string) (el : Element) :
  matches (html_tag_eq local_names) el = true
  <-> In (tag (etree_element el)) (xhtml_tags local_names).
Proof. unfold matches. rewrite run_html_tag_eq. apply mem_In. Qed.

Lemma tagged_and (local_names : list string) (x : expr) (el : Element) :
  matches (And (html_tag_eq local_names) x) el = true ->
  PyStr.startswith (tag (etree_element el)) xhtml = true.
Proof.
  rewrite matches_And, andb_true_iff. intros [H _].
  apply matches_html_tag_eq in H. exact (xhtml_tags_prefix _ _ H).
Qed.

(** C9.  [:link], [:enabled], [:disabled] and [:checked] compile to matchers
    that are true only on elements whose tag starts with the XHTML namespace
    in braces. *)
Theorem tag_restricted_need_xhtml
  (parse_nth : list Token -> option (Z * Z)) (name : string) :
  In name tag_restricted ->
  exists e,
    _compile_node parse_nth (PseudoClassSelector name) = Ok e
    /\ forall el,
         matches e el = true ->
         PyStr.startswith (tag (etree_element el))
           "{http://www.w3.org/1999/xhtml}" = true.
Proof.
  intros Hn.
  destruct Hn as [<-|[<-|[<-|[<-|[]]]]]; eexists; (split; [reflexivity|]);
    intros el; rewrite ?matches_Or, ?orb_true_iff;
    try (intros [H|H]; revert H); apply tagged_and.
Qed.

Lemma tag_restricted_need_xhtml_witness :
  exists e,
    _compile_node Fixture.demo_parse_nth (PseudoClassSelector "link") = Ok e
    /\ matches e Fixture.xhtml_a = true
    /\ PyStr.startswith (tag (etree_element Fixture.xhtml_a))
         "{http://www.w3.org/1999/xhtml}" = true.
Proof.
  destruct (tag_restricted_need_xhtml Fixture.demo_parse_nth "link")
    as [e [H1 H2]].
  - simpl; auto.
  - exists e. split; [exact H1|].
    assert (Hm : matches e Fixture.xhtml_a = true)
      by (injection H1 as <-; reflexivity).
    split; [exact Hm | exact (H2 _ Hm)].
Defined.

(** A link without namespace, with an [href]: none of the four matches. *)
Example plain_link_never_matches :
  map (fun name =>
         match _compile_node Fixture.demo_parse_nth (PseudoClassSelector name)
         with
         | Ok e => Some (matches e Fixture.plain_a)
         | Raise _ => None
         end) tag_restricted
  = [Some false; Some false; Some false; Some false].
Proof. reflexivity. Qed.

(** ** [:enabled] *)

Lemma hyperlink_not_form_control (t : string) :
  In t (xhtml_tags hyperlinks) -> ~ In t (xhtml_tags form_controls).
Proof.
  intros [<-|[<-|[<-|[]]]] H; cbn in H;
    repeat (destruct H as [H|H]; [discriminate H|]); exact H.
Qed.

Lemma mem_false (y : string) (xs : list string) :
  PyStr.mem y xs = false <-> ~ In y xs.
Proof.
  rewrite <- mem_In. destruct (PyStr.mem y xs); split; intros H;
    try reflexivity; try discriminate; try (intros H'; discriminate H').
  now elim H.
Qed.

Lemma run_enabled (el' : Element) :
  run (Or (And (html_tag_eq form_controls) (AttrIsNone "disabled"))
          (And (html_tag_eq hyperlinks) (AttrIsNotNone "href")))
      el'
  = if PyStr.mem (tag (etree_element el')) (xhtml_tags form_controls)
    then
      if is_some (get_attr el' "disabled" None)
      then
        (PyStr.mem (tag (etree_element el')) (xhtml_tags hyperlinks)
         && is_some (get_attr el' "href" None),
         (el', a_etree_element)
         :: (el', a_get_attr "disabled" None)
         :: (el', a_etree_element)
         :: (if PyStr.mem (tag (etree_element el'))
                  (xhtml_tags hyperlinks)
             then [(el', a_get_attr "href" None)] else []))
      else (true, [(el', a_etree_element);
                   (el', a_get_attr "disabled" None)])
    else
      (PyStr.mem (tag (etree_element el')) (xhtml_tags hyperlinks)
       && is_some (get_attr el' "href" None),
       (el', a_etree_element) :: (el', a_etree_element)
       :: (if PyStr.mem (tag (etree_element el'))
                (xhtml_tags hyperlinks)
           then [(el', a_get_attr "href" None)] else [])).
Proof.
  cbn [run]. rewrite !run_html_tag_eq.
  unfold bind, get, ret.
  destruct (PyStr.mem (tag (etree_element el')) (xhtml_tags form_controls));
    destruct (is_some (get_attr el' "disabled" None));
    destruct (PyStr.mem (tag (etree_element el')) (xhtml_tags hyperlinks));
    reflexivity.
Qed.

(** C10.  On an element whose tag is the XHTML [a], [area] or [link],
    [:enabled] is true exactly when [href] is present; [disabled] is not
    looked up.  On any element the matcher looks [disabled] up exactly when
    the tag is one of the XHTML form controls, and there it is true exactly
    when [disabled] is absent. *)
Theorem enabled_on_hyperlinks
  (parse_nth : list Token -> option (Z * Z)) (el : Element) :
  In (tag (etree_element el)) (xhtml_tags hyperlinks) ->
  exists e,
    _compile_node parse_nth (PseudoClassSelector "enabled") = Ok e
    /\ (matches e el = true <-> get_attr el "href" None <> None)
    /\ (forall el',
          In (el', a_get_attr "disabled" None) (calls_of (run e el'))
          <-> In (tag (etree_element el')) (xhtml_tags form_controls))
    /\ (forall el',
          In (tag (etree_element el')) (xhtml_tags form_controls) ->
          (matches e el' = true <-> get_attr el' "disabled" None = None)).
Proof.
  intros Ht. eexists. split; [reflexivity|].
  pose proof run_enabled as R.
  split; [|split].
  - unfold matches. rewrite R.
    pose proof (proj2 (mem_false _ _) (hyperlink_not_form_control _ Ht)) as Hf.
    rewrite Hf. apply mem_In in Ht. rewrite Ht. cbn.
    destruct (get_attr el "href" None); cbn; split; intros H;
      try discriminate; try reflexivity. now elim H.
  - intros el'. rewrite R, <- mem_In.
    destruct (PyStr.mem (tag (etree_element el')) (xhtml_tags form_controls)).
    + split; [reflexivity|]. intros _.
      destruct (is_some (get_attr el' "disabled" None)); cbn; auto.
    + split; [|discriminate].
      destruct (PyStr.mem (tag (etree_element el')) (xhtml_tags hyperlinks));
        cbn; intros H;
        repeat (destruct H as [H|H]; [discriminate H|]); destruct H.
  - intros el' Hc. unfold matches. rewrite R.
    pose proof (proj2 (mem_In _ _) Hc) as Hc'. rewrite Hc'.
    destruct (get_attr el' "disabled" None) eqn:D;
      cbn [is_some value_of fst].
    + destruct (PyStr.mem (tag (etree_element el')) (xhtml_tags hyperlinks))
        eqn:Hh.
      * apply mem_In in Hh. now elim (hyperlink_not_form_control _ Hh).
      * cbn. split; intros H'; discriminate H'.
    + split; reflexivity.
Qed.

Lemma enabled_on_hyperlinks_witness :
  exists e,
    _compile_node Fixture.demo_parse_nth (PseudoClassSelector "enabled") = Ok e
    /\ (matches e Fixture.xhtml_a = true
        <-> get_attr Fixture.xhtml_a "href" None <> None).
Proof.
  destruct (enabled_on_hyperlinks Fixture.demo_parse_nth Fixture.xhtml_a)
    as [e [H1 [H2 _]]].
  - simpl; auto.
  - exists e. split; [exact H1 | exact H2].
Defined.

(** An XHTML link with [href] and [disabled] is enabled; an XHTML input
    with [disabled] is not. *)
Example enabled_examples :
  exists e,
    _compile_node Fixture.demo_parse_nth (PseudoClassSelector "enabled") = Ok e
    /\ run e Fixture.xhtml_a
       = (true, [(Fixture.xhtml_a, a_etree_element);
                 (Fixture.xhtml_a, a_etree_element);
                 (Fixture.xhtml_a, a_get_attr "href" None)])
    /\ matches e Fixture.xhtml_input = false.
Proof. eexists. repeat split. Qed.

(** ** Splitting and stripping *)

Section Runs.

Variable sep : ascii -> bool.

Lemma runs_not_nil (l cur : list ascii) :
  cur <> [] -> PyStr.runs sep cur l <> [].
Proof.
  revert cur. induction l as [|c r IH]; intros cur Hc; cbn.
  - destruct cur; [now elim Hc | discriminate].
  - destruct (sep c).
    + destruct cur; [now elim Hc | discriminate].
    + apply IH. discriminate.
Qed.

Lemma runs_nil_all_sep (l : list ascii) :
  PyStr.runs sep [] l = [] -> forallb sep l = true.
Proof.
  induction l as [|c r IH]; cbn; [reflexivity|].
  destruct (sep c) eqn:S; cbn.
  - exact IH.
  - intros H. now apply runs_not_nil in H.
Qed.

(** One run only: the text is a token followed by separators. *)
Lemma runs_one (l cur : list ascii) :
  cur <> [] ->
  List.length (PyStr.runs sep cur l) = 1 ->
  exists a b,
    l = a ++ b
    /\ forallb (fun c => negb (sep c)) a = true
    /\ forallb sep b = true.
Proof.
  revert cur. induction l as [|c r IH]; intros cur Hc H.
  - exists [], []. repeat split.
  - cbn in H. destruct (sep c) eqn:S.
    + exists [], (c :: r). cbn. rewrite S. repeat split.
      apply runs_nil_all_sep.
      destruct cur; [now elim Hc|]. cbn in H.
      destruct (PyStr.runs sep [] r); [reflexivity | discriminate].
    + destruct (IH (c :: cur)) as [a [b [-> [Ha Hb]]]];
        [discriminate | exact H |].
      exists (c :: a), b. cbn. rewrite S, Ha. repeat split. exact Hb.
Qed.

Lemma runs_token (l cur : list ascii) :
  forallb (fun c => negb (sep c)) l = true ->
  cur ++ l <> [] ->
  PyStr.runs sep cur l = [rev cur ++ l].
Proof.
  revert cur. induction l as [|c r IH]; intros cur Hl Hn; cbn.
  - rewrite app_nil_r in *. destruct cur; [now elim Hn | reflexivity].
  - cbn in Hl. apply andb_true_iff in Hl as [Hc Hr].
    apply negb_true_iff in Hc. rewrite Hc.
    rewrite IH; [|exact Hr | discriminate].
    cbn. now rewrite <- app_assoc.
Qed.

End Runs.

Lemma lstrip_length (l : list ascii) :
  PyStr.lstrip l = l \/ List.length (PyStr.lstrip l) < List.length l.
Proof.
  induction l as [|c r IH]; cbn; [now left|].
  destruct (PyStr.isspace c); [|now left].
  right. destruct IH as [->|H]; lia.
Qed.

Lemma lstrip_fixed (l : list ascii) :
  PyStr.lstrip l = l ->
  match l with [] => True | c :: _ => PyStr.isspace c = false end.
Proof.
  destruct l as [|c r]; cbn; [trivial|].
  destruct (PyStr.isspace c); [|reflexivity].
  intros H. destruct (lstrip_length r) as [E|E]; rewrite H in E.
  - exfalso. apply (f_equal (@List.length ascii)) in E. cbn in E. lia.
  - cbn in E. lia.
Qed.

Lemma lstrip_token (l : list ascii) :
  forallb (fun c => negb (PyStr.isspace c)) l = true -> PyStr.lstrip l = l.
Proof.
  destruct l as [|c r]; cbn; [reflexivity|].
  destruct (PyStr.isspace c); [discriminate | reflexivity].
Qed.

(** A text equal to its own [strip] starts and ends outside whitespace. *)
Lemma strip_fixed (l : list ascii) :
  rev (PyStr.lstrip (rev (PyStr.lstrip l))) = l ->
  PyStr.lstrip l = l /\ PyStr.lstrip (rev l) = rev l.
Proof.
  intros H.
  assert (E : PyStr.lstrip l = l).
  { destruct (lstrip_length l) as [E|E]; [exact E|]. exfalso.
    apply (f_equal (@List.length ascii)) in H. rewrite length_rev in H.
    destruct (lstrip_length (rev (PyStr.lstrip l))) as [E'|E'].
    - rewrite E', length_rev in H. lia.
    - rewrite length_rev in E'. lia. }
  split; [exact E|]. rewrite E in H.
  apply (f_equal (@rev ascii)) in H. now rewrite rev_involutive in H.
Qed.

Lemma strip_eq_chars (operand : string) :
  String.eqb (PyStr.strip operand) operand = true
  <-> rev (PyStr.lstrip (rev (PyStr.lstrip (PyStr.chars operand))))
      = PyStr.chars operand.
Proof.
  rewrite String.eqb_eq. unfold PyStr.strip, PyStr.chars. split; intros H.
  - apply (f_equal list_ascii_of_string) in H.
    now rewrite list_ascii_of_string_of_list_ascii in H.
  - rewrite H. apply string_of_list_ascii_of_string.
Qed.

(** The test on the operand of [~=] accepts exactly the single tokens. *)
Lemma one_word_single_token (operand : string) :
  one_word operand = single_token operand.
Proof.
  apply eq_true_iff_eq. unfold one_word, single_token, PyStr.split.
  rewrite andb_true_iff, Nat.eqb_eq, strip_eq_chars, length_map.
  set (l := PyStr.chars operand). split.
  - intros [H1 H2]. apply strip_fixed in H2 as [Hs He].
    destruct l as [|c r] eqn:L; [discriminate H1|]. rewrite <- L in *.
    assert (Hc : PyStr.isspace c = false).
    { rewrite L in Hs. exact (lstrip_fixed _ Hs). }
    rewrite L in H1. cbn in H1. rewrite Hc in H1.
    destruct (runs_one PyStr.isspace r [c]) as [a [b [Er [Ha Hb]]]];
      [discriminate | exact H1 |].
    assert (Hbn : b = []).
    { destruct b as [|x b' _] using rev_ind; [reflexivity|]. exfalso.
      rewrite forallb_app in Hb. apply andb_true_iff in Hb as [_ Hx].
      cbn in Hx. rewrite andb_true_r in Hx.
      apply lstrip_fixed in He. rewrite L, Er in He.
      change (c :: a ++ b' ++ [x]) with ((c :: a) ++ b' ++ [x]) in He.
      rewrite app_assoc, rev_app_distr in He. cbn in He. congruence. }
    subst b. rewrite app_nil_r in Er. subst r.
    rewrite L. cbn. now rewrite Hc, Ha.
  - intros H. destruct l as [|c r] eqn:L; [discriminate H|].
    rewrite <- L in *. split.
    + rewrite (runs_token PyStr.isspace l [] H); [reflexivity|].
      rewrite L. discriminate.
    + rewrite (lstrip_token l H), lstrip_token, rev_involutive;
        [reflexivity|].
      rewrite forallb_forall in *. intros x Hx. apply H.
      now apply in_rev.
Qed.

(** ** Attribute selectors that never match *)

(** C7.  An attribute selector that the compiler supports (in a declared
    namespace, or in no namespace) compiles to the literal ['0'], false on
    every element, when its operator is [~=] and its operand is not a single
    token, and when its operator is [^=], [$=] or [*=] and its operand is
    empty. *)
Theorem attribute_literal_false
  (parse_nth : list Token -> option (Z * Z))
  (ns name op operand : string) :
  (op = "~=" /\ single_token operand = false)
  \/ (In op ["^="; "$="; "*="] /\ operand = EmptyString) ->
  _compile_node parse_nth (AttributeSelector (Some ns) name (Some op) operand)
  = Ok Zero
  /\ forall el, matches Zero el = false.
Proof.
  intros H. split; [|reflexivity].
  destruct H as [[-> H]|[H ->]].
  - rewrite <- one_word_single_token in H. unfold one_word in H.
    cbn [_compile_node String.eqb Ascii.eqb Bool.eqb].
    rewrite <- negb_andb, H. reflexivity.
  - destruct H as [<-|[<-|[<-|[]]]]; reflexivity.
Qed.

Lemma attribute_literal_false_witness :
  _compile_node Fixture.demo_parse_nth
    (AttributeSelector (Some EmptyString) "class" (Some "~=") "foo bar")
  = Ok Zero
  /\ _compile_node Fixture.demo_parse_nth
       (AttributeSelector (Some EmptyString) "title" (Some "^=") EmptyString)
     = Ok Zero.
Proof.
  split.
  - apply (attribute_literal_false Fixture.demo_parse_nth EmptyString "class"
             "~=" "foo bar").
    left. split; reflexivity.
  - apply (attribute_literal_false Fixture.demo_parse_nth EmptyString "title"
             "^=" EmptyString).
    right. split; [simpl; auto | reflexivity].
Defined.

(** With a single token as operand, [~=] compiles to a test of the
    element. *)
Lemma attribute_includes_compiles
  (parse_nth : list Token -> option (Z * Z)) (ns name operand : string) :
  single_token operand = true ->
  exists key,
    _compile_node parse_nth
      (AttributeSelector (Some ns) name (Some "~=") operand)
    = Ok (AttrIncludes operand key).
Proof.
  intros H. rewrite <- one_word_single_token in H. unfold one_word in H.
  eexists. cbn [_compile_node String.eqb Ascii.eqb Bool.eqb].
  rewrite <- negb_andb, H. reflexivity.
Qed.

(** * Further properties of the compiler *)

(** ** Compound selectors *)

Lemma map_result_ok {A B : Type} (f : A -> result B) (l : list A)
  (ys : list B) :
  map_result f l = Ok ys -> Forall2 (fun a b => f a = Ok b) l ys.
Proof.
  revert ys. induction l as [|x l IH]; intros ys H; cbn in H.
  - injection H as <-. constructor.
  - destruct (f x) as [y|] eqn:Hx; [|discriminate].
    destruct (map_result f l) as [ys'|]; [|discriminate].
    injection H as <-. constructor; [exact Hx | now apply IH].
Qed.

Lemma matches_join_and (l : list expr) (el : Element) :
  matches (join_and l) el = forallb (fun e => matches e el) l.
Proof.
  induction l as [|e l IH]; [reflexivity|].
  destruct l as [|e' r].
  - cbn. now rewrite andb_true_r.
  - change (join_and (e :: e' :: r)) with (And e (join_and (e' :: r))).
    rewrite matches_And, IH. reflexivity.
Qed.

Lemma forallb_without_ones (es : list expr) (el : Element) :
  forallb (fun e => matches e el) (filter (fun e => negb (is_1 e)) es)
  = forallb (fun e => matches e el) es.
Proof.
  induction es as [|e es IH]; [reflexivity|]. cbn.
  destruct (is_1 e) eqn:H1; cbn; rewrite IH; [|reflexivity].
  apply is_1_true in H1. now subst e.
Qed.

Lemma some_zero_none_matches (l : list expr) (el : Element) :
  existsb is_0 l = true -> forallb (fun e => matches e el) l = false.
Proof.
  induction l as [|e l IH]; cbn; [discriminate|].
  destruct (is_0 e) eqn:H0; cbn.
  - intros _. apply is_0_true in H0. now subst e.
  - intros H. rewrite (IH H). apply andb_false_r.
Qed.

Lemma length_one {A : Type} (l : list A) :
  Nat.eqb (List.length l) 1 = true -> exists x, l = [x].
Proof.
  destruct l as [|x [|y r]]; cbn; try discriminate. intros _. now exists x.
Qed.

(** The three-state simplification of a compound keeps its meaning. *)
Lemma compound_test_matches (es : list expr) (el : Element) :
  matches (compound_test es) el = forallb (fun e => matches e el) es.
Proof.
  unfold compound_test. rewrite <- forallb_without_ones.
  set (subs := filter (fun e => negb (is_1 e)) es).
  destruct (Nat.eqb (List.length subs) 1) eqn:L.
  - destruct (length_one _ L) as [x ->]. cbn. now rewrite andb_true_r.
  - destruct (existsb is_0 subs) eqn:Z.
    + now rewrite some_zero_none_matches.
    + destruct subs as [|x r] eqn:S; [reflexivity|].
      apply matches_join_and.
Qed.

Lemma matches_negate (test : expr) (el : Element) :
  matches (negate test) el = negb (matches test el).
Proof.
  unfold negate. destruct (is_0 test) eqn:H0.
  - apply is_0_true in H0. now subst.
  - destruct (is_1 test) eqn:H1.
    + apply is_1_true in H1. now subst.
    + apply matches_Not.
Qed.

Lemma forallb_Forall2 (compile : Selector -> result expr)
  (ss : list Selector) (es : list expr) (el : Element) :
  Forall2 (fun s e => compile s = Ok e) ss es ->
  forallb (fun e => matches e el) es = true
  <-> forall s, In s ss -> exists e, compile s = Ok e /\ matches e el = true.
Proof.
  induction 1 as [|s e ss es Hs _ IH]; cbn.
  - split; [intros _ s [] | reflexivity].
  - rewrite andb_true_iff, IH. split.
    + intros [He H] s' [<-|Hin]; [now exists e | now apply H].
    + intros H. split.
      * destruct (H s (or_introl eq_refl)) as [e' [He' Hm]]. congruence.
      * intros s' Hin. apply H. now right.
Qed.

Section Compound.

Variable parse_nth : list Token -> option (Z * Z).

Lemma compile_compound_ok (ss : list Selector) (e : expr) :
  _compile_node parse_nth (CompoundSelector ss) = Ok e ->
  exists es,
    Forall2 (fun s x => _compile_node parse_nth s = Ok x) ss es
    /\ e = compound_test es.
Proof.
  rewrite compile_compound_eq. intros H.
  destruct (map_result (_compile_node parse_nth) ss) as [es|] eqn:Hm;
    [|discriminate].
  injection H as <-. exists es. split; [now apply map_result_ok | reflexivity].
Qed.

Lemma compile_negation_ok (ss : list Selector) (e : expr) :
  _compile_node parse_nth (NegationSelector ss) = Ok e ->
  exists es,
    Forall2 (fun s x => _compile_node parse_nth s = Ok x) ss es
    /\ _compile_node parse_nth (CompoundSelector ss) = Ok (compound_test es)
    /\ e = negate (compound_test es).
Proof.
  rewrite compile_compound_eq.
  change (_compile_node parse_nth (NegationSelector ss))
    with (rbind (map_result (_compile_node parse_nth) ss)
            (fun compiled => Ok (negate (compound_test compiled)))).
  intros H.
  destruct (map_result (_compile_node parse_nth) ss) as [es|] eqn:Hm;
    [|discriminate].
  injection H as <-. exists es.
  split; [now apply map_result_ok | split; reflexivity].
Qed.

(** X1.  A compound selector that compiles matches an element exactly when
    every one of its simple selectors, compiled on its own, matches it:
    dropping the ['1'] members, returning a lone member bare and collapsing
    to ['0'] change nothing of the meaning. *)
Theorem compound_is_conjunction (ss : list Selector) (e : expr) :
  _compile_node parse_nth (CompoundSelector ss) = Ok e ->
  forall el,
    matches e el = true
    <-> forall s, In s ss ->
          exists x, _compile_node parse_nth s = Ok x /\ matches x el = true.
Proof.
  intros H el. destruct (compile_compound_ok _ _ H) as [es [F ->]].
  rewrite compound_test_matches. now apply forallb_Forall2.
Qed.

(** X2.  A negation that compiles is the complement of the compound with
    the same members: that compound compiles too, and on every element the
    two matchers return opposite answers. *)
Theorem negation_is_complement (ss : list Selector) (e : expr) :
  _compile_node parse_nth (NegationSelector ss) = Ok e ->
  exists e',
    _compile_node parse_nth (CompoundSelector ss) = Ok e'
    /\ forall el, matches e el = negb (matches e' el).
Proof.
  intros H. destruct (compile_negation_ok _ _ H) as [es [_ [H' ->]]].
  exists (compound_test es). split; [exact H'|].
  intros el. apply matches_negate.
Qed.

Lemma compound_test_zero (es : list expr) :
  In Zero es -> compound_test es = Zero.
Proof.
  intros Hin. unfold compound_test.
  set (subs := filter (fun e => negb (is_1 e)) es).
  assert (Hs : In Zero subs) by (apply filter_In; split; [exact Hin | reflexivity]).
  destruct (Nat.eqb (List.length subs) 1) eqn:L.
  - destruct (length_one _ L) as [x E]. rewrite E in *.
    destruct Hs as [<-|[]]. reflexivity.
  - assert (Z : existsb is_0 subs = true)
      by (apply existsb_exists; exists Zero; split; [exact Hs | reflexivity]).
    now rewrite Z.
Qed.

Lemma map_result_total {A B : Type} (f : A -> result B) (l : list A) :
  (forall x, In x l -> exists y, f x = Ok y) ->
  exists ys,
    map_result f l = Ok ys /\ Forall2 (fun a b => f a = Ok b) l ys.
Proof.
  intros H. induction l as [|x l IH].
  - exists []. split; [reflexivity | constructor].
  - destruct (H x (or_introl eq_refl)) as [y Hy].
    destruct IH as [ys [E F]]; [intros x' Hx'; apply H; now right|].
    exists (y :: ys). cbn. rewrite Hy, E. split; [reflexivity|].
    now constructor.
Qed.

(** X3.  A compound all of whose simple selectors compile, one of them to
    ['0'], compiles, and to ['0']: neither the number of the other members
    nor what they compiled to changes it. *)
Theorem compound_with_false_member (ss : list Selector) (s : Selector) :
  (forall s', In s' ss -> exists e, _compile_node parse_nth s' = Ok e) ->
  In s ss ->
  _compile_node parse_nth s = Ok Zero ->
  _compile_node parse_nth (CompoundSelector ss) = Ok Zero.
Proof.
  intros Hall Hin Hs.
  destruct (map_result_total (_compile_node parse_nth) ss Hall)
    as [es [E F]].
  rewrite compile_compound_eq, E. cbn [rbind]. f_equal.
  apply compound_test_zero.
  clear E Hall. induction F as [|s' x ss es Hx F IH]; [destruct Hin|].
  destruct Hin as [->|Hin].
  - left. congruence.
  - right. now apply IH.
Qed.

Lemma compound_test_one (es : list expr) :
  compound_test es = One <-> forall e, In e es -> e = One.
Proof.
  unfold compound_test.
  set (subs := filter (fun e => negb (is_1 e)) es).
  assert (Hsub : forall e, In e subs -> is_1 e = false).
  { intros e He. apply filter_In in He as [_ He].
    now apply negb_true_iff in He. }
  assert (Hall : subs = [] <-> forall e, In e es -> e = One).
  { split.
    - intros E e He. apply is_1_true.
      destruct (is_1 e) eqn:H1; [reflexivity|]. exfalso.
      assert (Hin : In e subs)
        by (apply filter_In; split; [exact He | now rewrite H1]).
      now rewrite E in Hin.
    - intros H.
      assert (N : forall x, ~ In x subs).
      { intros x Hx. pose proof (Hsub x Hx) as Hx1.
        apply filter_In in Hx as [Hx _]. rewrite (H x Hx) in Hx1.
        discriminate. }
      destruct subs as [|x r]; [reflexivity|]. elim (N x). now left. }
  rewrite <- Hall.
  destruct (Nat.eqb (List.length subs) 1) eqn:L.
  - destruct (length_one _ L) as [x E]. rewrite E in *. cbn. split.
    + intros ->. discriminate (Hsub One (or_introl eq_refl)).
    + discriminate.
  - destruct (existsb is_0 subs) eqn:Z.
    + split; [discriminate|]. intros E. rewrite E in Z. discriminate Z.
    + destruct subs as [|x [|y r]]; [now split | discriminate L |].
      split; discriminate.
Qed.

(** X4.  A compound that compiles is the literal ['1'] exactly when every
    one of its simple selectors compiles to ['1']; in particular the empty
    compound is ['1'], true on every element. *)
Theorem compound_true_iff_all_true (ss : list Selector) (e : expr) :
  _compile_node parse_nth (CompoundSelector ss) = Ok e ->
  (e = One <-> forall s, In s ss -> _compile_node parse_nth s = Ok One)
  /\ (ss = [] -> e = One /\ forall el, run e el = (true, [])).
Proof.
  intros H. split.
  - destruct (compile_compound_ok _ _ H) as [es [F ->]].
    rewrite compound_test_one. clear H.
    induction F as [|s x ss es Hx F IH]; cbn.
    + split; intros _ ? [].
    + split.
      * intros Hall s' [<-|Hin].
        -- rewrite Hx. f_equal. apply Hall. now left.
        -- apply IH; [|exact Hin]. intros e He. apply Hall. now right.
      * intros Hall e [<-|He].
        -- specialize (Hall s (or_introl eq_refl)). congruence.
        -- apply IH; [|exact He]. intros s' Hin. apply Hall. now right.
  - intros ->. cbn in H. injection H as <-. split; reflexivity.
Qed.

End Compound.

Lemma compound_is_conjunction_witness :
  matches (And (LocalNameEq "li") (InClasses "on")) Fixture.li0 = true
  <-> forall s,
        In s [LocalNameSelector "li"; ClassSelector "on"] ->
        exists x,
          _compile_node Fixture.demo_parse_nth s = Ok x
          /\ matches x Fixture.li0 = true.
Proof.
  apply (compound_is_conjunction Fixture.demo_parse_nth
           [LocalNameSelector "li"; ClassSelector "on"]).
  reflexivity.
Defined.

Lemma negation_is_complement_witness :
  exists e',
    _compile_node Fixture.demo_parse_nth
      (CompoundSelector [ClassSelector "a"]) = Ok e'
    /\ forall el, matches (Not (InClasses "a")) el = negb (matches e' el).
Proof.
  apply (negation_is_complement Fixture.demo_parse_nth [ClassSelector "a"]).
  reflexivity.
Defined.

Lemma compound_with_false_member_witness :
  _compile_node Fixture.demo_parse_nth
    (CompoundSelector
       [LocalNameSelector "a"; PseudoClassSelector "hover";
        ClassSelector "b"])
  = Ok Zero.
Proof.
  apply (compound_with_false_member Fixture.demo_parse_nth
           [LocalNameSelector "a"; PseudoClassSelector "hover";
            ClassSelector "b"]
           (PseudoClassSelector "hover")).
  - intros s' [<-|[<-|[<-|[]]]]; eexists; reflexivity.
  - simpl; auto.
  - reflexivity.
Defined.

Lemma compound_true_iff_all_true_witness :
  One = One
  <-> forall s,
        In s [NegationSelector [PseudoClassSelector "hover"]] ->
        _compile_node Fixture.demo_parse_nth s = Ok One.
Proof.
  exact (proj1 (compound_true_iff_all_true Fixture.demo_parse_nth
                  [NegationSelector [PseudoClassSelector "hover"]] One
                  eq_refl)).
Defined.

(** ** Combined selectors: meaning, order of compilation, exceptions *)

Section CombinedMore.

Variable parse_nth : list Token -> option (Z * Z).

(** What a successful compilation of a combined selector went through. *)
Lemma combined_ok_inv (left_ right_ : Selector) (combinator : string)
  (e : expr) :
  _compile_node parse_nth (CombinedSelector left_ combinator right_) = Ok e ->
  exists l,
    _compile_node parse_nth left_ = Ok l
    /\ ((is_0 l = true /\ e = Zero)
        \/ (is_0 l = false
            /\ In combinator combinators
            /\ exists r,
                 _compile_node parse_nth right_ = Ok r
                 /\ e = and_right r (left_test combinator l))).
Proof.
  intros H.
  destruct (_compile_node parse_nth left_) as [l|] eqn:Hl;
    [|cbn [_compile_node] in H; rewrite Hl in H; discriminate].
  exists l. split; [reflexivity|].
  destruct (is_0 l) eqn:H0.
  - left. split; [reflexivity|].
    apply is_0_true in H0. subst l.
    rewrite (combined_left_false parse_nth _ right_ combinator Hl) in H.
    now injection H as <-.
  - right. split; [reflexivity|].
    destruct (in_dec string_dec combinator combinators) as [Hc|Hc].
    + split; [exact Hc|].
      destruct (_compile_node parse_nth right_) as [r|x] eqn:Hr.
      * exists r. split; [reflexivity|].
        rewrite (combined_compiles parse_nth _ _ _ _ _ Hl Hr Hc), H0 in H.
        now injection H as <-.
      * exfalso. cbn [_compile_node] in H. rewrite Hl in H.
        cbn [rbind] in H. rewrite H0 in H.
        destruct Hc as [<-|[<-|[<-|[<-|[]]]]]; cbn in H; rewrite Hr in H;
          destruct (is_1 l); discriminate H.
    + exfalso.
      rewrite (combined_unknown_combinator parse_nth _ right_ _ _ Hl H0 Hc)
        in H.
      discriminate H.
Qed.

(** X5.  Whatever the states of its two sides, a combined selector with one
    of the four combinators matches an element exactly when its right side
    matches the element and the combinator relates the element to one that
    its left side matches: the shortcuts taken for ['0'] and ['1'] never
    change what is matched. *)
Theorem combined_matches
  (left_ right_ : Selector) (combinator : string) (l r : expr) :
  _compile_node parse_nth left_ = Ok l ->
  _compile_node parse_nth right_ = Ok r ->
  In combinator combinators ->
  exists e,
    _compile_node parse_nth (CombinedSelector left_ combinator right_) = Ok e
    /\ forall el,
         matches e el = true
         <-> matches r el = true
             /\ combinator_relation combinator (matches l) el.
Proof.
  intros Hl Hr Hc. eexists.
  split; [exact (combined_compiles parse_nth _ _ _ _ _ Hl Hr Hc)|].
  intros el. rewrite <- (left_test_matches combinator l el Hc).
  destruct (is_0 l) eqn:H0.
  - unfold left_test. rewrite H0.
    split; [discriminate | intros [_ H]; discriminate H].
  - now rewrite matches_and_right, andb_true_iff.
Qed.

(** X6.  With a combinator that is none of [' '], ['>'], ['+'], ['~'], a
    combined selector whose left side compiles gives ['0'] when the left
    side is ['0'] and raises [SelectorError('Unknown combinator', ...)]
    otherwise; the right side plays no part. *)
Theorem unknown_combinator
  (left_ right_ : Selector) (combinator : string) (l : expr) :
  _compile_node parse_nth left_ = Ok l ->
  ~ In combinator combinators ->
  _compile_node parse_nth (CombinedSelector left_ combinator right_)
  = if is_0 l then Ok Zero
    else Raise (SelectorError ["Unknown combinator"; combinator]).
Proof.
  intros Hl Hc. destruct (is_0 l) eqn:H0.
  - apply is_0_true in H0. subst l. now apply combined_left_false.
  - now apply combined_unknown_combinator with l.
Qed.

Lemma parent_is_ancestor (f : Element -> bool) (el : Element) :
  combinator_relation ">" f el -> combinator_relation " " f el.
Proof.
  cbn. intros [p [P H]]. exists p. split; [now apply ancestor_parent | exact H].
Qed.

Lemma previous_is_sibling (f : Element -> bool) (el : Element) :
  combinator_relation "+" f el -> combinator_relation "~" f el.
Proof.
  cbn. intros [p [P H]]. exists p. split; [now apply sibling_previous | exact H].
Qed.

Lemma narrower_combinator (c1 c2 : string) (left_ right_ : Selector)
  (e1 e2 : expr) :
  In c1 combinators -> In c2 combinators ->
  (forall f el, combinator_relation c1 f el -> combinator_relation c2 f el) ->
  _compile_node parse_nth (CombinedSelector left_ c1 right_) = Ok e1 ->
  _compile_node parse_nth (CombinedSelector left_ c2 right_) = Ok e2 ->
  forall el, matches e1 el = true -> matches e2 el = true.
Proof.
  intros Hc1 Hc2 Hrel H1 H2 el.
  destruct (combined_ok_inv _ _ _ _ H1) as [l [Hl [[_ ->]|[H0 [_ [r [Hr ->]]]]]]];
    [discriminate|].
  destruct (combined_ok_inv _ _ _ _ H2) as [l' [Hl' D]].
  assert (l' = l) by congruence. subst l'.
  destruct D as [[H0' _]|[_ [_ [r' [Hr' ->]]]]]; [congruence|].
  assert (r' = r) by congruence. subst r'.
  rewrite !matches_and_right, !andb_true_iff.
  rewrite (left_test_matches c1 l el Hc1), (left_test_matches c2 l el Hc2).
  intros [Hm Hx]. split; [exact Hm | now apply Hrel].
Qed.

(** X7.  With the same two sides, what the child combinator matches the
    descendant combinator matches too, and what the adjacent-sibling
    combinator matches the general-sibling combinator matches too. *)
Theorem child_and_adjacent_are_narrower
  (left_ right_ : Selector) (e_child e_descendant e_adjacent e_sibling : expr) :
  _compile_node parse_nth (CombinedSelector left_ ">" right_) = Ok e_child ->
  _compile_node parse_nth (CombinedSelector left_ " " right_)
  = Ok e_descendant ->
  _compile_node parse_nth (CombinedSelector left_ "+" right_)
  = Ok e_adjacent ->
  _compile_node parse_nth (CombinedSelector left_ "~" right_) = Ok e_sibling ->
  forall el,
    (matches e_child el = true -> matches e_descendant el = true)
    /\ (matches e_adjacent el = true -> matches e_sibling el = true).
Proof.
  intros H1 H2 H3 H4 el. split.
  - apply (narrower_combinator ">" " " left_ right_); cbn; auto.
    apply parent_is_ancestor.
  - apply (narrower_combinator "+" "~" left_ right_); cbn; auto 6.
    apply previous_is_sibling.
Qed.

(** X8.  The left side of a combined selector is compiled first and its
    exception is the one raised; the exception of the right side is raised
    when the left side compiled to something other than ['0'] under one of
    the four combinators. *)
Theorem combined_exceptions
  (left_ right_ : Selector) (combinator : string) (x : exn) :
  (_compile_node parse_nth left_ = Raise x ->
   _compile_node parse_nth (CombinedSelector left_ combinator right_)
   = Raise x)
  /\ (forall l,
        _compile_node parse_nth left_ = Ok l ->
        is_0 l = false ->
        In combinator combinators ->
        _compile_node parse_nth right_ = Raise x ->
        _compile_node parse_nth (CombinedSelector left_ combinator right_)
        = Raise x).
Proof.
  split.
  - intros Hl. cbn [_compile_node]. now rewrite Hl.
  - intros l Hl H0 Hc Hr. cbn [_compile_node]. rewrite Hl. cbn [rbind].
    rewrite H0.
    destruct Hc as [<-|[<-|[<-|[<-|[]]]]]; cbn; rewrite Hr;
      destruct (is_1 l); reflexivity.
Qed.

End CombinedMore.

Lemma combined_matches_witness :
  exists e,
    _compile_node Fixture.demo_parse_nth
      (CombinedSelector (CompoundSelector []) "+" (Fixture.compound "p"))
    = Ok e
    /\ (matches e Fixture.p1 = true
        <-> matches (LocalNameEq "p") Fixture.p1 = true
            /\ combinator_relation "+" (matches One) Fixture.p1).
Proof.
  destruct (combined_matches Fixture.demo_parse_nth (CompoundSelector [])
              (Fixture.compound "p") "+" One (LocalNameEq "p"))
    as [e [H1 H2]]; try reflexivity.
  - simpl; auto.
  - exists e. split; [exact H1 | apply H2].
Defined.

Lemma unknown_combinator_witness :
  _compile_node Fixture.demo_parse_nth
    (CombinedSelector (Fixture.compound "a") "!" (Fixture.compound "b"))
  = Raise (SelectorError ["Unknown combinator"; "!"]).
Proof.
  apply (unknown_combinator Fixture.demo_parse_nth (Fixture.compound "a")
           (Fixture.compound "b") "!" (LocalNameEq "a")).
  - reflexivity.
  - cbn. intros H.
    repeat (destruct H as [H|H]; [discriminate H|]). exact H.
Defined.

Lemma child_and_adjacent_are_narrower_witness :
  (matches (And (LocalNameEq "li") (NextParent (LocalNameEq "a")))
     Fixture.li2 = true ->
   matches (And (LocalNameEq "li") (AnyAncestors (LocalNameEq "a")))
     Fixture.li2 = true)
  /\ (matches (And (LocalNameEq "li") (NextPrevious (LocalNameEq "a")))
        Fixture.li2 = true ->
      matches (And (LocalNameEq "li") (AnyPreviousSiblings (LocalNameEq "a")))
        Fixture.li2 = true).
Proof.
  apply (child_and_adjacent_are_narrower Fixture.demo_parse_nth
           (Fixture.compound "a") (Fixture.compound "li"));
    reflexivity.
Defined.

Lemma combined_exceptions_witness :
  _compile_node Fixture.demo_parse_nth
    (CombinedSelector
       (CompoundSelector [PseudoClassSelector "nope"]) ">"
       (CompoundSelector
          [AttributeSelector None "lang" None EmptyString]))
  = Raise (SelectorError ["Unknown pseudo-class"; "nope"])
  /\ _compile_node Fixture.demo_parse_nth
       (CombinedSelector (Fixture.compound "a") ">"
          (CompoundSelector
             [AttributeSelector None "lang" None EmptyString]))
     = Raise NotImplementedError.
Proof.
  split.
  - apply (proj1 (combined_exceptions Fixture.demo_parse_nth _ _ _ _)).
    reflexivity.
  - apply (proj2 (combined_exceptions Fixture.demo_parse_nth _ _ _ _)
             (LocalNameEq "a")); try reflexivity.
    simpl; auto.
Defined.

(** ** Names and operators that compile *)

Ltac in_list := cbn; repeat (first [left; reflexivity | right]).

Section Names.

Variable parse_nth : list Token -> option (Z * Z).

(** X9.  A pseudo-class compiles exactly when its name is one of the
    seventeen the compiler knows; any other name raises
    [SelectorError('Unknown pseudo-class', name)]. *)
Theorem pseudo_class_known_or_unknown (name : string) :
  (In name pseudo_class_names ->
   exists e, _compile_node parse_nth (PseudoClassSelector name) = Ok e)
  /\ (~ In name pseudo_class_names ->
      _compile_node parse_nth (PseudoClassSelector name)
      = Raise (SelectorError ["Unknown pseudo-class"; name])).
Proof.
  split.
  - intros H.
    repeat (destruct H as [<-|H]; [eexists; reflexivity|]). destruct H.
  - intros H.
    assert (E : forall c, In c pseudo_class_names ->
                          String.eqb name c = false).
    { intros c Hin. apply String.eqb_neq. intros ->. now apply H. }
    cbn [_compile_node]. unfold PyStr.mem. cbn [existsb].
    rewrite !E by in_list. reflexivity.
Qed.

(** X10.  A functional pseudo-class other than [lang] and the four [nth-*]
    raises [SelectorError('Unknown pseudo-class', name)] whatever its
    arguments; an [nth-*] whose arguments [parse_nth] rejects raises
    [SelectorError('Invalid arguments for :<name>()')]. *)
Theorem functional_pseudo_class_exceptions
  (name : string) (arguments : list Token) :
  (~ In name ("lang" :: nth_names) ->
   _compile_node parse_nth (FunctionalPseudoClassSelector name arguments)
   = Raise (SelectorError ["Unknown pseudo-class"; name]))
  /\ (In name nth_names ->
      parse_nth arguments = None ->
      _compile_node parse_nth (FunctionalPseudoClassSelector name arguments)
      = Raise (SelectorError
                 [("Invalid arguments for :" ++ name ++ "()")%string])).
Proof.
  split.
  - intros H.
    assert (E : forall c, In c ("lang" :: nth_names) ->
                          String.eqb name c = false).
    { intros c Hin. apply String.eqb_neq. intros ->. now apply H. }
    cbn [_compile_node]. rewrite !E by in_list. reflexivity.
  - intros H Hp.
    destruct H as [<-|[<-|[<-|[<-|[]]]]]; cbn; rewrite Hp; reflexivity.
Qed.

(** X11.  [:lang()] compiles exactly when its arguments, whitespace tokens
    left out, are a single [ident] token; otherwise it raises
    [SelectorError('Invalid arguments for :lang()')]. *)
Theorem lang_arguments (arguments : list Token) :
  (forall t,
     without_whitespace arguments = [t] -> type t = "ident" ->
     _compile_node parse_nth (FunctionalPseudoClassSelector "lang" arguments)
     = Ok (LangMatch (value t) (value t ++ "-")%string))
  /\ ((forall t, without_whitespace arguments = [t] -> type t <> "ident") ->
      _compile_node parse_nth (FunctionalPseudoClassSelector "lang" arguments)
      = Raise (SelectorError ["Invalid arguments for :lang()"])).
Proof.
  unfold without_whitespace. cbn [_compile_node String.eqb Ascii.eqb Bool.eqb].
  split.
  - intros t -> Ht. rewrite Ht. reflexivity.
  - intros H.
    destruct (filter _ arguments) as [|t [|u r]]; try reflexivity.
    destruct (String.eqb_spec (type t) "ident") as [E|_]; [|reflexivity].
    now elim (H t eq_refl).
Qed.

Lemma append_assoc (a b c : string) :
  ((a ++ b) ++ c)%string = (a ++ (b ++ c))%string.
Proof. induction a as [|x a IH]; cbn; [reflexivity | now rewrite IH]. Qed.

Lemma startswith_iff (s p : string) :
  PyStr.startswith s p = true <-> exists t, s = (p ++ t)%string.
Proof.
  unfold PyStr.startswith. split.
  - revert s. induction p as [|c p IH]; intros s H.
    + now exists s.
    + destruct s as [|d s]; [discriminate|]. cbn in H.
      destruct (Ascii.ascii_dec c d) as [->|]; [|discriminate].
      destruct (IH s H) as [t ->]. now exists t.
  - intros [t ->]. apply prefix_append.
Qed.

(** X12.  A compiled [:lang(x)] matches an element exactly when the
    element has a language tag that is [x] or begins with [x] followed by a
    hyphen, in the same letter case. *)
Theorem lang_matches (arguments : list Token) (t : Token) :
  without_whitespace arguments = [t] ->
  type t = "ident" ->
  exists e,
    _compile_node parse_nth (FunctionalPseudoClassSelector "lang" arguments)
    = Ok e
    /\ forall el,
         matches e el = true
         <-> exists v,
               lang el = Some v
               /\ (v = value t
                   \/ exists rest, v = (value t ++ "-" ++ rest)%string).
Proof.
  intros Ha Ht. eexists. split.
  - unfold without_whitespace in Ha.
    cbn [_compile_node String.eqb Ascii.eqb Bool.eqb]. rewrite Ha, Ht.
    reflexivity.
  - intros el. unfold matches, value_of. cbn [run].
    unfold bind, get, ret.
    destruct (lang el) as [v|]; cbn [PyStr.opt_eq or_empty fst].
    + destruct (String.eqb_spec v (value t)) as [->|N]; cbn [fst].
      * split; [intros _; exists (value t); split; auto | reflexivity].
      * rewrite startswith_iff. split.
        -- intros [rest ->]. exists ((value t ++ "-") ++ rest)%string.
           split; [reflexivity|]. right. exists rest.
           now rewrite append_assoc.
        -- intros [w [[= <-] [E|[rest E]]]]; [now elim N|].
           exists rest. now rewrite append_assoc.
    + split; [discriminate | intros [v [[=] _]]].
Qed.

(** X13.  In a namespace that is given, an attribute selector compiles when
    it has no operator or one of the six operators, and raises
    [SelectorError('Unknown attribute operator', op)] on any other. *)
Theorem attribute_operator_known_or_unknown (ns name operand : string) :
  (exists e,
     _compile_node parse_nth (AttributeSelector (Some ns) name None operand)
     = Ok e)
  /\ (forall op,
        In op attribute_operators ->
        exists e,
          _compile_node parse_nth (attribute ns name op operand) = Ok e)
  /\ (forall op,
        ~ In op attribute_operators ->
        _compile_node parse_nth (attribute ns name op operand)
        = Raise (SelectorError ["Unknown attribute operator"; op])).
Proof.
  split; [eexists; reflexivity|]. split.
  - intros op H. unfold attribute.
    destruct H as [<-|[<-|[<-|[<-|[<-|[<-|[]]]]]]];
      cbn [_compile_node String.eqb Ascii.eqb Bool.eqb];
      try (eexists; reflexivity).
    + destruct (_ || _); eexists; reflexivity.
    + destruct (PyStr.truthy operand); eexists; reflexivity.
    + destruct (PyStr.truthy operand); eexists; reflexivity.
    + destruct (PyStr.truthy operand); eexists; reflexivity.
  - intros op H.
    assert (E : forall c, In c attribute_operators ->
                          String.eqb op c = false).
    { intros c Hin. apply String.eqb_neq. intros ->. now apply H. }
    unfold attribute. cbn [_compile_node]. rewrite !E by in_list. reflexivity.
Qed.

End Names.

Lemma functional_pseudo_class_exceptions_witness :
  _compile_node Fixture.demo_parse_nth
    (FunctionalPseudoClassSelector "nth-child" [])
  = Raise (SelectorError ["Invalid arguments for :nth-child()"]).
Proof.
  apply (proj2 (functional_pseudo_class_exceptions Fixture.demo_parse_nth
                  "nth-child" [])).
  - simpl; auto.
  - reflexivity.
Defined.

Lemma lang_arguments_witness :
  _compile_node Fixture.demo_parse_nth
    (FunctionalPseudoClassSelector "lang"
       [mkToken "whitespace" " "; mkToken "ident" "fr";
        mkToken "whitespace" " "])
  = Ok (LangMatch "fr" "fr-").
Proof.
  apply (proj1 (lang_arguments Fixture.demo_parse_nth
                  [mkToken "whitespace" " "; mkToken "ident" "fr";
                   mkToken "whitespace" " "])
           (mkToken "ident" "fr")); reflexivity.
Defined.

Lemma lang_matches_witness :
  exists e,
    _compile_node Fixture.demo_parse_nth
      (FunctionalPseudoClassSelector "lang" [mkToken "ident" "fr"]) = Ok e
    /\ forall el,
         matches e el = true
         <-> exists v,
               lang el = Some v
               /\ (v = "fr" \/ exists rest, v = ("fr" ++ "-" ++ rest)%string).
Proof.
  apply (lang_matches Fixture.demo_parse_nth [mkToken "ident" "fr"]
           (mkToken "ident" "fr")); reflexivity.
Defined.

Lemma pseudo_class_known_or_unknown_witness :
  _compile_node Fixture.demo_parse_nth (PseudoClassSelector "Hover")
  = Raise (SelectorError ["Unknown pseudo-class"; "Hover"]).
Proof.
  apply (proj2 (pseudo_class_known_or_unknown Fixture.demo_parse_nth "Hover")).
  cbn. intros H. repeat (destruct H as [H|H]; [discriminate H|]). exact H.
Defined.

Lemma attribute_operator_known_or_unknown_witness :
  _compile_node Fixture.demo_parse_nth
    (attribute EmptyString "title" "!=" "x")
  = Raise (SelectorError ["Unknown attribute operator"; "!="]).
Proof.
  apply (proj2 (proj2 (attribute_operator_known_or_unknown
                         Fixture.demo_parse_nth EmptyString "title" "x"))).
  cbn. intros H. repeat (destruct H as [H|H]; [discriminate H|]). exact H.
Defined.

(** ** Attribute selectors: how the operators relate *)

Lemma prefix_refl (s : string) : String.prefix s s = true.
Proof.
  induction s as [|c s IH]; cbn; [reflexivity|].
  destruct (Ascii.ascii_dec c c) as [_|N]; [exact IH | now elim N].
Qed.

Lemma list_prefix_app (p t : list ascii) : PyStr.list_prefix p (p ++ t) = true.
Proof.
  induction p as [|c p IH]; cbn; [reflexivity|].
  now rewrite Ascii.eqb_refl, IH.
Qed.

Lemma list_prefix_inv (p l : list ascii) :
  PyStr.list_prefix p l = true -> exists t, l = p ++ t.
Proof.
  revert l. induction p as [|c p IH]; intros l H.
  - now exists l.
  - destruct l as [|d l]; [discriminate|]. cbn in H.
    apply andb_true_iff in H as [E H]. apply Ascii.eqb_eq in E. subst d.
    destruct (IH l H) as [t ->]. now exists t.
Qed.

Lemma string_of_list_ascii_app (a b : list ascii) :
  string_of_list_ascii (a ++ b)
  = (string_of_list_ascii a ++ string_of_list_ascii b)%string.
Proof. induction a as [|c a IH]; cbn; [reflexivity | now rewrite IH]. Qed.

Lemma list_ascii_of_string_app (a b : string) :
  list_ascii_of_string (a ++ b)%string
  = list_ascii_of_string a ++ list_ascii_of_string b.
Proof. induction a as [|c a IH]; cbn; [reflexivity | now rewrite IH]. Qed.

Lemma endswith_iff (s p : string) :
  PyStr.endswith s p = true <-> exists t, s = (t ++ p)%string.
Proof.
  unfold PyStr.endswith, PyStr.chars. split.
  - intros H. apply list_prefix_inv in H as [t E].
    apply (f_equal (@rev ascii)) in E.
    rewrite rev_involutive, rev_app_distr, rev_involutive in E.
    exists (string_of_list_ascii (rev t)).
    rewrite <- (string_of_list_ascii_of_string s), E,
      string_of_list_ascii_app.
    now rewrite string_of_list_ascii_of_string.
  - intros [t ->]. rewrite list_ascii_of_string_app, rev_app_distr.
    apply list_prefix_app.
Qed.

Lemma contains_intro (a p b : string) :
  PyStr.contains (a ++ p ++ b)%string p = true.
Proof.
  induction a as [|c a IH].
  - cbn [append]. destruct (p ++ b)%string eqn:E; cbn [PyStr.contains];
      rewrite <- E, prefix_append; reflexivity.
  - cbn [append PyStr.contains]. rewrite IH. apply orb_true_r.
Qed.

Lemma contains_iff (s p : string) :
  PyStr.contains s p = true <-> exists a b, s = (a ++ p ++ b)%string.
Proof.
  split; [|intros [a [b ->]]; apply contains_intro].
  induction s as [|c s IH]; cbn [PyStr.contains]; intros H.
  - rewrite orb_false_r in H. apply startswith_iff in H as [t E].
    exists EmptyString, t. exact E.
  - apply orb_true_iff in H as [H|H].
    + apply startswith_iff in H as [t E]. exists EmptyString, t. exact E.
    + destruct (IH H) as [a [b ->]]. now exists (String c a), b.
Qed.

Lemma css_space_isspace (c : ascii) :
  PyStr.css_space c = true -> PyStr.isspace c = true.
Proof.
  destruct c as [[] [] [] [] [] [] [] []]; vm_compute; intros H;
    first [reflexivity | discriminate H].
Qed.

(** A single token is the one word of itself. *)
Lemma findall_single_token (operand : string) :
  single_token operand = true ->
  PyStr.findall_non_css_space operand = [operand].
Proof.
  unfold single_token, PyStr.findall_non_css_space. intros H.
  destruct (PyStr.chars operand) as [|c r] eqn:L; [discriminate|].
  rewrite <- L in *.
  rewrite (runs_token PyStr.css_space (PyStr.chars operand) []).
  - cbn. unfold PyStr.chars. now rewrite string_of_list_ascii_of_string.
  - rewrite forallb_forall in *. intros x Hx. specialize (H x Hx).
    apply negb_true_iff in H. apply negb_true_iff.
    destruct (PyStr.css_space x) eqn:S; [|reflexivity].
    apply css_space_isspace in S. congruence.
  - rewrite L. discriminate.
Qed.

Lemma get_attr_default (el : Element) (key v : string) (d : option string) :
  get_attr el key None = Some v -> get_attr el key d = Some v.
Proof.
  unfold get_attr. destruct (assoc key (attrib el)); [auto | discriminate].
Qed.

Lemma opt_eq_true (x : option string) (y : string) :
  PyStr.opt_eq x y = true <-> x = Some y.
Proof.
  destruct x as [v|]; cbn; [|split; discriminate].
  rewrite String.eqb_eq. split; [now intros -> | now intros [= ->]].
Qed.

Lemma truthy_true (s : string) : PyStr.truthy s = true <-> s <> EmptyString.
Proof.
  destruct s; cbn; split; intros H; try discriminate; auto.
Qed.

Ltac run_leaf :=
  unfold matches, value_of; cbn [run]; unfold bind, get, ret; cbn [fst].

Section Attributes.

Variable parse_nth : list Token -> option (Z * Z).

(** The compilation of an attribute selector, operator by operator. *)
Lemma compile_attribute (ns name op operand : string) :
  _compile_node parse_nth (attribute ns name op operand)
  = let key := attribute_key ns name in
    if String.eqb op "=" then Ok (AttrEq key operand)
    else if String.eqb op "~=" then
      if one_word operand then Ok (AttrIncludes operand key) else Ok Zero
    else if String.eqb op "|=" then
      Ok (AttrDashMatch operand (operand ++ "-")%string key)
    else if String.eqb op "^=" then
      if PyStr.truthy operand then Ok (AttrStartswith key operand)
      else Ok Zero
    else if String.eqb op "$=" then
      if PyStr.truthy operand then Ok (AttrEndswith key operand) else Ok Zero
    else if String.eqb op "*=" then
      if PyStr.truthy operand then Ok (AttrContains operand key) else Ok Zero
    else Raise (SelectorError ["Unknown attribute operator"; op]).
Proof.
  unfold attribute, attribute_key, one_word. cbn [_compile_node].
  rewrite <- negb_andb.
  destruct (Nat.eqb _ 1 && String.eqb _ operand); reflexivity.
Qed.

(** X14.  Where [[name=v]] matches an element, the selector with any other
    operator and the same operand matches it too, unless that selector is
    the literal ['0'] (operand of [~=] not one token, empty operand of
    [^=], [$=], [*=]). *)
Theorem attribute_equality_is_narrowest
  (ns name operand op : string) (e_eq e : expr) (el : Element) :
  _compile_node parse_nth (attribute ns name "=" operand) = Ok e_eq ->
  matches e_eq el = true ->
  _compile_node parse_nth (attribute ns name op operand) = Ok e ->
  e <> Zero ->
  matches e el = true.
Proof.
  rewrite !compile_attribute. cbv zeta. cbn [String.eqb Ascii.eqb Bool.eqb].
  intros [= <-] Hm.
  assert (Hv : get_attr el (attribute_key ns name) None = Some operand).
  { apply opt_eq_true. exact Hm. }
  pose proof (get_attr_default el _ _ (Some EmptyString) Hv) as Hd.
  destruct (String.eqb op "="); [now intros [= <-]|].
  destruct (String.eqb op "~=").
  { destruct (one_word operand) eqn:W; intros [= <-] N; [|now elim N].
    rewrite one_word_single_token in W.
    run_leaf. rewrite Hd. cbn [or_empty].
    rewrite (findall_single_token _ W). cbn. now rewrite String.eqb_refl. }
  destruct (String.eqb op "|=").
  { intros [= <-] _. run_leaf. rewrite Hv.
    cbn. now rewrite String.eqb_refl. }
  destruct (String.eqb op "^=").
  { destruct (PyStr.truthy operand); intros [= <-] N; [|now elim N].
    run_leaf. rewrite Hd. apply prefix_refl. }
  destruct (String.eqb op "$=").
  { destruct (PyStr.truthy operand); intros [= <-] N; [|now elim N].
    run_leaf. rewrite Hd. cbn [or_empty].
    apply endswith_iff. now exists EmptyString. }
  destruct (String.eqb op "*=").
  { destruct (PyStr.truthy operand); intros [= <-] N; [|now elim N].
    run_leaf. rewrite Hd.
    cbn [or_empty]. apply contains_iff. exists EmptyString, EmptyString.
    cbn. clear. induction operand as [|c s IH]; cbn; [reflexivity|].
    now rewrite <- IH. }
  discriminate.
Qed.

(** X15.  Where [[name^=v]] or [[name$=v]] matches an element, [[name*=v]]
    matches it too. *)
Theorem prefix_and_suffix_are_substrings
  (ns name operand : string) (e_prefix e_suffix e_sub : expr) (el : Element) :
  _compile_node parse_nth (attribute ns name "^=" operand) = Ok e_prefix ->
  _compile_node parse_nth (attribute ns name "$=" operand) = Ok e_suffix ->
  _compile_node parse_nth (attribute ns name "*=" operand) = Ok e_sub ->
  matches e_prefix el = true \/ matches e_suffix el = true ->
  matches e_sub el = true.
Proof.
  rewrite !compile_attribute. cbv zeta. cbn [String.eqb Ascii.eqb Bool.eqb].
  destruct (PyStr.truthy operand); intros [= <-] [= <-] [= <-];
    [|intros [H|H]; discriminate H].
  run_leaf.
  set (v := or_empty (get_attr el (attribute_key ns name) (Some EmptyString))).
  rewrite startswith_iff, endswith_iff, contains_iff.
  intros [[t E]|[t E]].
  - exists EmptyString, t. exact E.
  - exists t, EmptyString. rewrite E. f_equal. clear.
    induction operand as [|c s IH]; cbn; [reflexivity | now rewrite <- IH].
Qed.

(** X16.  An attribute selector that is not the literal ['0'] consults the
    element once, for the attribute [name] when its namespace is [''] and
    for ['{ns}name'] otherwise, and nothing else. *)
Theorem attribute_looks_up_one_key
  (ns name operand : string) (operator : option string) (e : expr) :
  _compile_node parse_nth (AttributeSelector (Some ns) name operator operand)
  = Ok e ->
  e <> Zero ->
  forall el,
    exists default,
      calls_of (run e el)
      = [(el, a_get_attr (attribute_key ns name) default)].
Proof.
  destruct operator as [op|].
  - change (AttributeSelector (Some ns) name (Some op) operand)
      with (attribute ns name op operand).
    rewrite compile_attribute. cbv zeta.
    repeat match goal with
           | |- context [if ?b then _ else _] => destruct b
           end;
      intros [= <-] N el; try (now elim N); eexists; reflexivity.
  - intros [= <-] _ el. eexists. reflexivity.
Qed.

End Attributes.

Lemma attribute_equality_is_narrowest_witness :
  matches (AttrStartswith "href" "#top") Fixture.plain_a = true.
Proof.
  apply (attribute_equality_is_narrowest Fixture.demo_parse_nth EmptyString
           "href" "#top" "^=" (AttrEq "href" "#top")); try reflexivity.
  discriminate.
Defined.

Lemma prefix_and_suffix_are_substrings_witness :
  matches (AttrContains "#" "href") Fixture.plain_a = true.
Proof.
  apply (prefix_and_suffix_are_substrings Fixture.demo_parse_nth EmptyString
           "href" "#" (AttrStartswith "href" "#") (AttrEndswith "href" "#"));
    try reflexivity.
  left. reflexivity.
Defined.

Lemma attribute_looks_up_one_key_witness :
  exists default,
    calls_of (run (AttrIsNotNone "{http://www.w3.org/1999/xlink}href")
                Fixture.plain_a)
    = [(Fixture.plain_a,
        a_get_attr
          (attribute_key "http://www.w3.org/1999/xlink" "href") default)].
Proof.
  apply (attribute_looks_up_one_key Fixture.demo_parse_nth
           "http://www.w3.org/1999/xlink" "href" EmptyString None).
  - reflexivity.
  - discriminate.
Defined.

(** ** [CompiledSelector]: what the hints promise *)

Lemma first_of_some (kind : Selector -> option string) (l : list Selector)
  (v : string) :
  first_of kind l = Some v -> exists s, In s l /\ kind s = Some v.
Proof.
  induction l as [|s l IH]; cbn; [discriminate|].
  destruct (kind s) as [w|] eqn:K.
  - intros [= ->]. exists s. split; [now left | exact K].
  - intros H. destruct (IH H) as [s' [Hin Hk]]. exists s'. split; auto.
Qed.

Lemma last_of_some (kind : Selector -> option string) (l : list Selector)
  (v : string) :
  last_of kind l = Some v -> exists s, In s l /\ kind s = Some v.
Proof.
  unfold last_of. intros H. destruct (first_of_some _ _ _ H) as [s [Hin Hk]].
  exists s. split; [now apply in_rev | exact Hk].
Qed.

Lemma hints_loop_keeps_rest (l : list Selector) (self : CompiledSelector.t) :
  CompiledSelector.specificity
    (fold_left CompiledSelector.record_hint l self)
  = CompiledSelector.specificity self
  /\ CompiledSelector.pseudo_element
       (fold_left CompiledSelector.record_hint l self)
     = CompiledSelector.pseudo_element self.
Proof.
  revert self. induction l as [|s l IH]; intros self; cbn [fold_left].
  - split; reflexivity.
  - destruct (IH (CompiledSelector.record_hint self s)) as [-> ->].
    destruct (record_hint_keeps self s) as [_ [_ [-> ->]]]. split; reflexivity.
Qed.

Section Hints.

Variable parse_nth : list Token -> option (Z * Z).

(** The matcher of a tree whose subject is a compound implies the matcher of
    that compound. *)
Lemma subject_matches (tree : Selector) (ss : list Selector) (source : expr)
  (el : Element) :
  CompiledSelector.subject tree = CompoundSelector ss ->
  _compile_node parse_nth tree = Ok source ->
  matches source el = true ->
  exists es,
    Forall2 (fun s x => _compile_node parse_nth s = Ok x) ss es
    /\ forallb (fun e => matches e el) es = true.
Proof.
  intros Hs Hc Hm. destruct tree; cbn in Hs; try discriminate.
  - subst tree2.
    destruct (combined_ok_inv _ _ _ _ _ Hc)
      as [l [_ [[_ ->]|[_ [_ [r [Hr ->]]]]]]]; [discriminate Hm|].
    rewrite matches_and_right in Hm. apply andb_true_iff in Hm as [Hm _].
    destruct (compile_compound_ok _ _ _ Hr) as [es [F ->]].
    exists es. split; [exact F|]. now rewrite <- compound_test_matches.
  - injection Hs as ->.
    destruct (compile_compound_ok _ _ _ Hc) as [es [F ->]].
    exists es. split; [exact F|]. now rewrite <- compound_test_matches.
Qed.

Lemma member_matches (ss : list Selector) (es : list expr) (s : Selector)
  (el : Element) :
  Forall2 (fun s x => _compile_node parse_nth s = Ok x) ss es ->
  forallb (fun e => matches e el) es = true ->
  In s ss ->
  exists x, _compile_node parse_nth s = Ok x /\ matches x el = true.
Proof.
  intros F H. now apply (forallb_Forall2 (_compile_node parse_nth) ss es el F).
Qed.

(** X17.  The hints of a compiled selector whose subject is a compound are
    necessary conditions of a match: an element on which [test] is true has
    the recorded id, carries the recorded class, and has the recorded local
    name and namespace.  Rejecting an element on a hint never loses a
    match. *)
Theorem hints_are_necessary
  (parsed_selector : ParsedSelector) (ss : list Selector)
  (c : CompiledSelector.t) (el : Element) :
  CompiledSelector.subject (parsed_tree parsed_selector)
  = CompoundSelector ss ->
  CompiledSelector_init parse_nth parsed_selector = Ok c ->
  value_of (CompiledSelector.test c el) = true ->
  (forall v, CompiledSelector.id c = Some v -> id el = Some v)
  /\ (forall v, CompiledSelector.class_name c = Some v -> In v (classes el))
  /\ (forall v, CompiledSelector.local_name c = Some v -> local_name el = v)
  /\ (forall v,
        CompiledSelector.namespace c = Some v -> namespace_url el = Some v).
Proof.
  intros Hs Hi Ht.
  destruct (CompiledSelector_init_ok _ _ _ Hi) as [source [ss' [Hc [Hss E]]]].
  rewrite Hs in Hss. cbn in Hss. injection Hss as <-.
  set (self := CompiledSelector.mk (is_0 source) (run source)
                 (parsed_specificity parsed_selector)
                 (parsed_pseudo_element parsed_selector)
                 None None None None) in E.
  destruct (hints_loop_keeps ss self) as [_ Htest].
  destruct (hints_loop ss self) as [Hid [Hcl [Hln Hns]]].
  rewrite <- E in Htest, Hid, Hcl, Hln, Hns. cbn in Hid, Hcl, Hln, Hns.
  rewrite Htest in Ht. cbn in Ht.
  destruct (subject_matches _ _ _ _ Hs Hc Ht) as [es [F Hall]].
  pose proof (member_matches ss es) as Hmem.
  repeat split; intros v Hv.
  - rewrite Hid in Hv. destruct (last_of ident_of ss) as [w|] eqn:L;
      [|discriminate]. injection Hv as ->.
    destruct (last_of_some _ _ _ L) as [s [Hin Hk]].
    destruct s; try discriminate. injection Hk as ->.
    destruct (Hmem _ el F Hall Hin) as [x [[= <-] Hx]].
    now apply opt_eq_true.
  - rewrite Hcl in Hv. destruct (last_of class_name_of ss) as [w|] eqn:L;
      [|discriminate]. injection Hv as ->.
    destruct (last_of_some _ _ _ L) as [s [Hin Hk]].
    destruct s; try discriminate. injection Hk as ->.
    destruct (Hmem _ el F Hall Hin) as [x [[= <-] Hx]].
    now apply mem_In.
  - rewrite Hln in Hv. destruct (last_of local_name_of ss) as [w|] eqn:L;
      [|discriminate]. injection Hv as ->.
    destruct (last_of_some _ _ _ L) as [s [Hin Hk]].
    destruct s; try discriminate. injection Hk as ->.
    destruct (Hmem _ el F Hall Hin) as [x [[= <-] Hx]].
    now apply String.eqb_eq.
  - rewrite Hns in Hv. destruct (last_of namespace_of ss) as [w|] eqn:L;
      [|discriminate]. injection Hv as ->.
    destruct (last_of_some _ _ _ L) as [s [Hin Hk]].
    destruct s; try discriminate. injection Hk as ->.
    destruct (Hmem _ el F Hall Hin) as [x [[= <-] Hx]].
    now apply opt_eq_true.
Qed.

(** X18.  A compiled selector carries the specificity and the
    pseudo-element of the parsed selector unchanged, and its [test] is the
    evaluation of the expression compiled from the parsed tree: the loop
    that records the hints touches none of them. *)
Theorem compiled_selector_passes_through
  (parsed_selector : ParsedSelector) (c : CompiledSelector.t) :
  CompiledSelector_init parse_nth parsed_selector = Ok c ->
  CompiledSelector.specificity c = parsed_specificity parsed_selector
  /\ CompiledSelector.pseudo_element c
     = parsed_pseudo_element parsed_selector
  /\ exists source,
       _compile_node parse_nth (parsed_tree parsed_selector) = Ok source
       /\ forall el, CompiledSelector.test c el = run source el.
Proof.
  intros Hi.
  destruct (CompiledSelector_init_ok _ _ _ Hi) as [source [ss [Hc [_ ->]]]].
  set (self := CompiledSelector.mk (is_0 source) (run source)
                 (parsed_specificity parsed_selector)
                 (parsed_pseudo_element parsed_selector)
                 None None None None).
  destruct (hints_loop_keeps ss self) as [_ ->].
  destruct (hints_loop_keeps_rest ss self) as [-> ->].
  repeat split. exists source. split; [exact Hc | reflexivity].
Qed.


End Hints.

Lemma hints_are_necessary_witness :
  (forall v, Some "x" = Some v -> id Fixture.hinted = Some v)
  /\ (forall v, Some "on" = Some v -> In v (classes Fixture.hinted))
  /\ (forall v, Some "li" = Some v -> local_name Fixture.hinted = v)
  /\ (forall v, None = Some v -> namespace_url Fixture.hinted = Some v).
Proof.
  apply (hints_are_necessary Fixture.demo_parse_nth
           (mkParsed
              (CombinedSelector (Fixture.compound "ul") ">"
                 (CompoundSelector
                    [LocalNameSelector "li"; ClassSelector "on";
                     IDSelector "x"]))
              (1, 1, 2) None)
           [LocalNameSelector "li"; ClassSelector "on"; IDSelector "x"]
           _ Fixture.hinted eq_refl eq_refl).
  reflexivity.
Defined.

Lemma compiled_selector_passes_through_witness :
  exists c,
    CompiledSelector_init Fixture.demo_parse_nth
      (mkParsed (Fixture.compound "a") (0, 0, 1) (Some "before")) = Ok c
    /\ CompiledSelector.specificity c = (0, 0, 1)
    /\ CompiledSelector.pseudo_element c = Some "before".
Proof.
  eexists. split; [reflexivity|].
  destruct (compiled_selector_passes_through Fixture.demo_parse_nth
              (mkParsed (Fixture.compound "a") (0, 0, 1) (Some "before"))
              _ eq_refl) as [H1 [H2 _]].
  split; [exact H1 | exact H2].
Defined.

(** ** Structural pseudo-classes *)

Lemma value_other_tag (el : Element) (s : EtreeElement) :
  value_of (other_tag el s) = negb (same_tag_as el s).
Proof. reflexivity. Qed.

Lemma none_counted {A : Type} (f : A -> bool) (l : list A) :
  (Z.of_nat (List.length (filter f l)) =? 0)%Z
  = forallb (fun x => negb (f x)) l.
Proof.
  induction l as [|x l IH]; [reflexivity|]. cbn [filter forallb].
  destruct (f x); cbn [negb andb List.length]; [|exact IH].
  apply Z.eqb_neq. lia.
Qed.

Lemma matches_FirstOfType (el : Element) :
  matches FirstOfType el
  = forallb (fun s => negb (same_tag_as el s)) (preceding el).
Proof.
  unfold matches. cbn [run]. unfold siblings_before. py_simpl.
  now rewrite all_gen_value.
Qed.

Lemma matches_LastOfType (el : Element) :
  matches LastOfType el
  = forallb (fun s => negb (same_tag_as el s)) (following el).
Proof.
  unfold matches. cbn [run]. unfold siblings_after. py_simpl.
  now rewrite all_gen_value.
Qed.

Lemma matches_IsLastChild (el : Element) :
  matches IsLastChild el
  = Nat.eqb (index el + 1) (List.length (etree_siblings el)).
Proof. reflexivity. Qed.

(** The test of [:only-of-type] on the siblings numbered from [k]. *)
Lemma only_of_type_from (el : Element) (l : list EtreeElement) (k : nat) :
  value_of
    (all_gen (fun '(i, s) =>
                x <- other_tag el s ;;
                if x then ret true
                else j <- get a_index index el ;; ret (Nat.eqb i j))
       (enumerate k l))
  = if Nat.ltb (index el) k
    then forallb (fun s => negb (same_tag_as el s)) l
    else forallb (fun s => negb (same_tag_as el s)) (firstn (index el - k) l)
         && forallb (fun s => negb (same_tag_as el s))
              (skipn (index el - k + 1) l).
Proof.
  revert k. induction l as [|s l IH]; intros k.
  - cbn [enumerate all_gen forallb]. rewrite firstn_nil, skipn_nil.
    now destruct (Nat.ltb (index el) k).
  - cbn [enumerate all_gen]. rewrite value_bind, value_if, IH.
    cbv beta iota. rewrite value_bind, value_if, value_other_tag.
    rewrite value_ret, value_bind, value_get, !value_ret.
    destruct (Nat.ltb_spec (index el) k) as [Hk|Hk].
    + destruct (Nat.ltb_spec (index el) (S k)); [|lia].
      cbn [forallb].
      destruct (negb (same_tag_as el s)); cbn [andb]; [reflexivity|].
      destruct (Nat.eqb_spec k (index el)); [lia | reflexivity].
    + destruct (Nat.ltb_spec (index el) (S k)) as [Hk'|Hk'].
      * assert (E : index el = k) by lia. rewrite E, Nat.sub_diag.
        cbn [firstn skipn Nat.add forallb andb].
        rewrite Nat.eqb_refl.
        now destruct (negb (same_tag_as el s)).
      * replace (index el - k) with (S (index el - S k)) by lia.
        cbn [firstn skipn Nat.add forallb].
        destruct (negb (same_tag_as el s)); cbn [andb]; [reflexivity|].
        destruct (Nat.eqb_spec k (index el)); [lia | reflexivity].
Qed.

Section Structural.

Variable parse_nth : list Token -> option (Z * Z).

(** X20.  With the argument [1] (that is, [a = 0] and [b = 1]) the four
    [nth-*] pseudo-classes match the same elements as [:first-child],
    [:last-child], [:first-of-type] and [:last-of-type]. *)
Theorem nth_one_is_first_or_last
  (arguments : list Token) (nth plain : string) :
  parse_nth arguments = Some (0, 1)%Z ->
  In (nth, plain) nth_and_plain ->
  exists e1 e2,
    _compile_node parse_nth (FunctionalPseudoClassSelector nth arguments)
    = Ok e1
    /\ _compile_node parse_nth (PseudoClassSelector plain) = Ok e2
    /\ forall el, matches e1 el = matches e2 el.
Proof.
  intros Hp H.
  assert (Hc : forall name,
            In name nth_names ->
            _compile_node parse_nth
              (FunctionalPseudoClassSelector name arguments)
            = Ok (CountEq (nth_count name) 0)).
  { intros name Hn. now rewrite (compile_nth _ _ _ _ _ Hn Hp). }
  destruct H as [[= <- <-]|[[= <- <-]|[[= <- <-]|[[= <- <-]|[]]]]];
    eexists; eexists;
    (split; [apply Hc; in_list|]); (split; [reflexivity|]);
    intros el; rewrite matches_CountEq;
    cbn [nth_count String.eqb Ascii.eqb Bool.eqb].
  - reflexivity.
  - rewrite matches_IsLastChild. cbn [run_count]. py_simpl.
    destruct (Nat.eqb_spec (index el + 1) (List.length (etree_siblings el)));
      [apply Z.eqb_eq | apply Z.eqb_neq]; lia.
  - rewrite matches_FirstOfType. cbn [run_count]. unfold siblings_before.
    py_simpl. rewrite sum_gen_value. apply none_counted.
  - rewrite matches_LastOfType. cbn [run_count]. unfold siblings_after.
    py_simpl. rewrite sum_gen_value. apply none_counted.
Qed.

(** X21.  [:only-of-type] matches exactly the elements that both
    [:first-of-type] and [:last-of-type] match. *)
Theorem only_of_type_is_first_and_last :
  exists e_only e_first e_last,
    _compile_node parse_nth (PseudoClassSelector "only-of-type") = Ok e_only
    /\ _compile_node parse_nth (PseudoClassSelector "first-of-type")
       = Ok e_first
    /\ _compile_node parse_nth (PseudoClassSelector "last-of-type")
       = Ok e_last
    /\ forall el, matches e_only el = matches e_first el && matches e_last el.
Proof.
  do 3 eexists. repeat (split; [reflexivity|]). intros el.
  rewrite matches_FirstOfType, matches_LastOfType.
  unfold matches. cbn [run]. py_simpl.
  rewrite (only_of_type_from el (etree_siblings el) 0).
  cbn [Nat.ltb Nat.leb]. now rewrite Nat.sub_0_r.
Qed.

(** X22.  On an element that sits at its index in its sibling list,
    [:only-child] matches exactly when [:first-child] and [:last-child]
    both match. *)
Theorem only_child_is_first_and_last (el : Element) :
  well_placed el ->
  exists e_only e_first e_last,
    _compile_node parse_nth (PseudoClassSelector "only-child") = Ok e_only
    /\ _compile_node parse_nth (PseudoClassSelector "first-child")
       = Ok e_first
    /\ _compile_node parse_nth (PseudoClassSelector "last-child") = Ok e_last
    /\ matches e_only el = matches e_first el && matches e_last el.
Proof.
  unfold well_placed. intros Hw.
  do 3 eexists. repeat (split; [reflexivity|]).
  rewrite matches_CountEq, matches_IsLastChild.
  change (matches OnlyChild el)
    with (Nat.eqb (List.length (etree_siblings el)) 1).
  cbn [run_count]. py_simpl.
  destruct (Nat.eqb_spec (List.length (etree_siblings el)) 1) as [E|E];
    destruct (Z.eqb_spec (Z.of_nat (index el)) 0) as [Z0|Z0];
    destruct (Nat.eqb_spec (index el + 1) (List.length (etree_siblings el)))
      as [L|L];
    cbn [andb]; try reflexivity; lia.
Qed.

Lemma matches_tag_and (local_names : list string) (x : expr) (el : Element) :
  matches (And (html_tag_eq local_names) x) el
  = PyStr.mem (tag (etree_element el)) (xhtml_tags local_names)
    && matches x el.
Proof.
  rewrite matches_And. unfold matches at 1. now rewrite run_html_tag_eq.
Qed.

(** X23.  No element is both [:disabled] and [:enabled]; an XHTML form
    control is one or the other; and every [:link] is [:enabled]. *)
Theorem enabled_disabled_link :
  exists e_enabled e_disabled e_link,
    _compile_node parse_nth (PseudoClassSelector "enabled") = Ok e_enabled
    /\ _compile_node parse_nth (PseudoClassSelector "disabled")
       = Ok e_disabled
    /\ _compile_node parse_nth (PseudoClassSelector "link") = Ok e_link
    /\ forall el,
         (matches e_disabled el = true -> matches e_enabled el = false)
         /\ (In (tag (etree_element el)) (xhtml_tags form_controls) ->
             matches e_enabled el = negb (matches e_disabled el))
         /\ (matches e_link el = true -> matches e_enabled el = true).
Proof.
  do 3 eexists. repeat (split; [reflexivity|]). intros el.
  rewrite matches_Or, !matches_tag_and.
  change (matches (AttrIsNone "disabled") el)
    with (negb (is_some (get_attr el "disabled" None))).
  change (matches (AttrIsNotNone "disabled") el)
    with (is_some (get_attr el "disabled" None)).
  destruct (PyStr.mem (tag (etree_element el)) (xhtml_tags form_controls))
    eqn:F;
    destruct (PyStr.mem (tag (etree_element el)) (xhtml_tags hyperlinks))
      eqn:L.
  - apply mem_In in F, L. now elim (hyperlink_not_form_control _ L).
  - cbn [andb orb negb].
    destruct (is_some (get_attr el "disabled" None)); cbn [andb orb negb];
      repeat split; intros H; first [reflexivity | discriminate H].
  - cbn [andb orb negb]. repeat split; intros H;
      first [discriminate H | apply mem_In in H; congruence | exact H].
  - cbn [andb orb negb]. repeat split; intros H;
      first [discriminate H | apply mem_In in H; congruence].
Qed.

(** X24.  For a positive step [a] an [nth-*] pseudo-class matches the counts
    [x >= b - 1] with [x - (b - 1)] a multiple of [a]; for a negative step,
    the counts [x <= b - 1] with [x - (b - 1)] a multiple of [a]. *)
Theorem nth_step_sign
  (name : string) (arguments : list Token) (a b : Z) :
  In name nth_names ->
  parse_nth arguments = Some (a, b) ->
  a <> 0%Z ->
  exists e,
    _compile_node parse_nth (FunctionalPseudoClassSelector name arguments)
    = Ok e
    /\ forall el,
         let x := value_of (run_count (nth_count name) el) in
         ((0 < a)%Z ->
          (matches e el = true
           <-> (b - 1 <= x)%Z /\ (a | x - (b - 1))%Z))
         /\ ((a < 0)%Z ->
             (matches e el = true
              <-> (x <= b - 1)%Z /\ (a | x - (b - 1))%Z)).
Proof.
  intros Hn Hp Ha. eexists. split; [exact (compile_nth _ _ _ _ _ Hn Hp)|].
  intros el x. destruct (Z.eqb_spec a 0) as [E|_]; [now elim Ha|].
  rewrite matches_NthDivmod. fold x. cbv zeta.
  rewrite (divmod_solves x (b - 1) a Ha). split; intros Hs; split.
  - intros [n [Hn0 ->]]. split; [nia|]. exists n. lia.
  - intros [Hx [z Hz]]. exists z. split; [nia | lia].
  - intros [n [Hn0 ->]]. split; [nia|]. exists n. lia.
  - intros [Hx [z Hz]]. exists z. split; [nia | lia].
Qed.

Lemma map_result_first_raise {A B : Type} (f : A -> result B)
  (before after : list A) (x : A) (e : exn) :
  (forall y, In y before -> exists b, f y = Ok b) ->
  f x = Raise e ->
  map_result f (before ++ x :: after) = Raise e.
Proof.
  intros Hb Hx. induction before as [|y before IH]; cbn.
  - now rewrite Hx.
  - destruct (Hb y (or_introl eq_refl)) as [b ->].
    rewrite IH; [reflexivity|]. intros y' Hy. apply Hb. now right.
Qed.

(** X25.  A compound or a negation whose simple selectors compile up to one
    that raises, raises that exception: members are compiled in order and
    the first failure is the one reported, whatever follows. *)
Theorem compound_first_exception
  (before after : list Selector) (s : Selector) (x : exn) :
  (forall s', In s' before -> exists e, _compile_node parse_nth s' = Ok e) ->
  _compile_node parse_nth s = Raise x ->
  _compile_node parse_nth (CompoundSelector (before ++ s :: after)) = Raise x
  /\ _compile_node parse_nth (NegationSelector (before ++ s :: after))
     = Raise x.
Proof.
  intros Hb Hs.
  pose proof (map_result_first_raise (_compile_node parse_nth) before after
                s x Hb Hs) as H.
  split.
  - now rewrite compile_compound_eq, H.
  - change (_compile_node parse_nth (NegationSelector (before ++ s :: after)))
      with (rbind (map_result (_compile_node parse_nth) (before ++ s :: after))
              (fun compiled => Ok (negate (compound_test compiled)))).
    now rewrite H.
Qed.

End Structural.

Lemma nth_one_is_first_or_last_witness :
  exists e1 e2,
    _compile_node (fun _ => Some (0, 1)%Z)
      (FunctionalPseudoClassSelector "nth-last-of-type" []) = Ok e1
    /\ _compile_node (fun _ => Some (0, 1)%Z)
         (PseudoClassSelector "last-of-type") = Ok e2
    /\ forall el, matches e1 el = matches e2 el.
Proof.
  apply (nth_one_is_first_or_last (fun _ => Some (0, 1)%Z) []
           "nth-last-of-type" "last-of-type").
  - reflexivity.
  - simpl; auto.
Defined.

Lemma only_child_is_first_and_last_witness :
  exists e_only e_first e_last,
    _compile_node Fixture.demo_parse_nth (PseudoClassSelector "only-child")
    = Ok e_only
    /\ _compile_node Fixture.demo_parse_nth (PseudoClassSelector "first-child")
       = Ok e_first
    /\ _compile_node Fixture.demo_parse_nth (PseudoClassSelector "last-child")
       = Ok e_last
    /\ matches e_only Fixture.li0
       = matches e_first Fixture.li0 && matches e_last Fixture.li0.
Proof.
  apply (only_child_is_first_and_last Fixture.demo_parse_nth Fixture.li0).
  unfold well_placed. cbn. lia.
Defined.

Lemma nth_step_sign_witness :
  exists e,
    _compile_node (fun _ => Some (-1, 3)%Z)
      (FunctionalPseudoClassSelector "nth-child" []) = Ok e
    /\ forall el,
         let x := value_of (run_count (nth_count "nth-child") el) in
         ((0 < -1)%Z ->
          (matches e el = true
           <-> (3 - 1 <= x)%Z /\ (-1 | x - (3 - 1))%Z))
         /\ ((-1 < 0)%Z ->
             (matches e el = true
              <-> (x <= 3 - 1)%Z /\ (-1 | x - (3 - 1))%Z)).
Proof.
  apply (nth_step_sign (fun _ => Some (-1, 3)%Z) "nth-child" [] (-1) 3).
  - simpl; auto.
  - reflexivity.
  - discriminate.
Defined.

Lemma compound_first_exception_witness :
  _compile_node Fixture.demo_parse_nth
    (CompoundSelector
       ([LocalNameSelector "a"]
        ++ PseudoClassSelector "nope"
           :: [AttributeSelector None "x" None EmptyString]))
  = Raise (SelectorError ["Unknown pseudo-class"; "nope"])
  /\ _compile_node Fixture.demo_parse_nth
       (NegationSelector
          ([LocalNameSelector "a"]
           ++ PseudoClassSelector "nope"
              :: [AttributeSelector None "x" None EmptyString]))
     = Raise (SelectorError ["Unknown pseudo-class"; "nope"]).
Proof.
  apply (compound_first_exception Fixture.demo_parse_nth
           [LocalNameSelector "a"]
           [AttributeSelector None "x" None EmptyString]
           (PseudoClassSelector "nope")).
  - intros s' [<-|[]]. eexists. reflexivity.
  - reflexivity.
Defined.

(** ** What a search visits *)

Lemma any_gen_stops {A : Type} (f : A -> M bool) (before after : list A)
  (a : A) :
  (forall b, In b before -> value_of (f b) = false) ->
  value_of (f a) = true ->
  any_gen f (before ++ a :: after)
  = (true, flat_map (fun b => calls_of (f b)) (before ++ [a])).
Proof.
  intros Hb Ha. induction before as [|b before IH]; cbn [app any_gen flat_map].
  - unfold bind, ret, value_of, calls_of in *. destruct (f a) as [v t].
    cbn in Ha. subst v. cbn. now rewrite !app_nil_r.
  - rewrite IH by (intros b' Hb'; apply Hb; now right).
    specialize (Hb b (or_introl eq_refl)).
    unfold bind, value_of, calls_of in *. destruct (f b) as [v t].
    cbn in Hb. subst v. reflexivity.
Qed.

Lemma any_gen_exhausts {A : Type} (f : A -> M bool) (l : list A) :
  (forall b, In b l -> value_of (f b) = false) ->
  any_gen f l = (false, flat_map (fun b => calls_of (f b)) l).
Proof.
  intros Hb. induction l as [|b l IH]; cbn [any_gen flat_map]; [reflexivity|].
  rewrite IH by (intros b' Hb'; apply Hb; now right).
  specialize (Hb b (or_introl eq_refl)).
  unfold bind, value_of, calls_of in *. destruct (f b) as [v t].
  cbn in Hb. subst v. reflexivity.
Qed.

(** X26.  The search of the descendant combinator asks for the ancestors
    once and tests them nearest first, up to the first one that the left
    side matches and no further; the general-sibling combinator does the same
    with the preceding siblings.  When none matches, every one is tested. *)
Theorem search_stops_at_first_match
  (combinator : string) (nav : accessor) (l : expr) (el : Element) :
  combinator = " " \/ combinator = "~" ->
  search_call combinator = Some nav ->
  (forall before a after,
     walked combinator el = before ++ a :: after ->
     (forall b, In b before -> matches l b = false) ->
     matches l a = true ->
     run (search combinator l) el
     = (true,
        (el, nav) :: flat_map (fun b => calls_of (run l b)) (before ++ [a])))
  /\ ((forall b, In b (walked combinator el) -> matches l b = false) ->
      run (search combinator l) el
      = (false,
         (el, nav)
         :: flat_map (fun b => calls_of (run l b)) (walked combinator el))).
Proof.
  intros Hc Hn. split.
  - intros before a after Hw Hb Ha.
    destruct Hc as [-> | ->]; injection Hn as <-; cbn in Hw;
      cbn [search String.eqb Ascii.eqb Bool.eqb run]; unfold bind, get;
      rewrite Hw, (any_gen_stops (run l) before after a Hb Ha); reflexivity.
  - intros Hb.
    destruct Hc as [-> | ->]; injection Hn as <-; cbn in Hb |- *;
      unfold bind, get; rewrite (any_gen_exhausts (run l) _ Hb); reflexivity.
Qed.

Lemma search_stops_at_first_match_witness :
  run (search " " (LocalNameEq "x")) Fixture.C
  = (true,
     (Fixture.C, a_iter_ancestors)
     :: flat_map (fun b => calls_of (run (LocalNameEq "x") b))
          ([] ++ [Fixture.B])).
Proof.
  apply (proj1 (search_stops_at_first_match " " a_iter_ancestors
                  (LocalNameEq "x") Fixture.C (or_introl eq_refl) eq_refl)
           [] Fixture.B [Fixture.A]).
  - reflexivity.
  - intros b [].
  - reflexivity.
Defined.

(** ** Selectors without a combinator read the element alone *)

Lemma value_run_count (c : count) (el : Element) :
  value_of (run_count c el)
  = match c with
    | c_index => Z.of_nat (index el)
    | c_after =>
        (Z.of_nat (List.length (etree_siblings el))
         - Z.of_nat (index el) - 1)%Z
    | c_same_tag_before =>
        Z.of_nat (List.length (filter (same_tag_as el) (preceding el)))
    | c_same_tag_after =>
        Z.of_nat (List.length (filter (same_tag_as el) (following el)))
    end.
Proof.
  destruct c; cbn [run_count]; unfold siblings_before, siblings_after;
    py_simpl; rewrite ?sum_gen_value; reflexivity.
Qed.

Lemma matches_OnlyOfType (el : Element) :
  matches OnlyOfType el
  = forallb (fun s => negb (same_tag_as el s)) (preceding el)
    && forallb (fun s => negb (same_tag_as el s)) (following el).
Proof.
  unfold matches. cbn [run]. py_simpl.
  rewrite (only_of_type_from el (etree_siblings el) 0).
  cbn [Nat.ltb Nat.leb]. now rewrite Nat.sub_0_r.
Qed.

(** An expression without a template of the combinators gives the same
    answer on two elements with the same data of their own. *)
Lemma own_data_matches (e : expr) :
  stays_on_element e = true ->
  forall el1 el2, same_own_data el1 el2 -> matches e el1 = matches e el2.
Proof.
  induction e; cbn [stays_on_element]; intros H el1 el2 S;
    try discriminate H;
    try (apply andb_true_iff in H as [H1 H2]);
    rewrite ?matches_And, ?matches_Or, ?matches_Not,
      ?matches_FirstOfType, ?matches_LastOfType, ?matches_OnlyOfType,
      ?matches_CountEq, ?matches_NthDivmod, ?value_run_count;
    try (rewrite (IHe1 H1 el1 el2 S), (IHe2 H2 el1 el2 S); reflexivity);
    try (rewrite (IHe H el1 el2 S); reflexivity);
    destruct S as (S1 & S2 & S3 & S4 & S5 & S6 & S7 & S8 & S9 & S10 & S11);
    destruct el1, el2; cbn in S1, S2, S3, S4, S5, S6, S7, S8, S9, S10, S11;
    subst;
    unfold same_tag_as, preceding, following.
  all: try reflexivity.
  all: try (unfold matches, value_of, bind, get, ret;
            cbn -[PyStr.opt_eq PyStr.mem PyStr.startswith PyStr.endswith
                  PyStr.contains PyStr.findall_non_css_space String.eqb
                  get_attr]).
  all: try reflexivity.
  - unfold bind, get, ret. cbn. now rewrite S11.
  - unfold bind, get, ret. cbn.
    match goal with
    | |- context [match ?c with [] => _ | _ :: _ => _ end] => destruct c
    end; reflexivity.
  - unfold bind, get, ret. cbn -[PyStr.opt_eq].
    match goal with
    | |- context [PyStr.opt_eq ?v ?x] =>
        destruct (PyStr.opt_eq v x); [reflexivity | destruct v; reflexivity]
    end.
Qed.

Lemma stays_join_and (l : list expr) :
  forallb stays_on_element l = true -> stays_on_element (join_and l) = true.
Proof.
  induction l as [|e l IH]; [reflexivity|]. cbn [forallb].
  intros H. apply andb_true_iff in H as [He Hl].
  destruct l as [|e' r]; [exact He|].
  change (join_and (e :: e' :: r)) with (And e (join_and (e' :: r))).
  cbn [stays_on_element]. now rewrite He, IH.
Qed.

Lemma stays_compound_test (es : list expr) :
  forallb stays_on_element es = true ->
  stays_on_element (compound_test es) = true.
Proof.
  intros H. unfold compound_test.
  set (subs := filter (fun e => negb (is_1 e)) es).
  assert (Hs : forallb stays_on_element subs = true).
  { rewrite forallb_forall in *. intros x Hx. apply H.
    now apply filter_In in Hx as [Hx _]. }
  destruct (Nat.eqb (List.length subs) 1) eqn:L.
  - destruct (length_one _ L) as [x E]. rewrite E in *. cbn in *.
    now rewrite andb_true_r in Hs.
  - destruct (existsb is_0 subs); [reflexivity|].
    destruct subs as [|x r] eqn:S; [reflexivity|]. now apply stays_join_and.
Qed.

Lemma stays_negate (e : expr) :
  stays_on_element e = true -> stays_on_element (negate e) = true.
Proof.
  intros H. unfold negate. destruct (is_0 e); [reflexivity|].
  destruct (is_1 e); [reflexivity | exact H].
Qed.

Lemma stays_html_tag_eq (names : list string) :
  stays_on_element (html_tag_eq names) = true.
Proof. destruct names as [|n [|m r]]; reflexivity. Qed.

Section Locality.

Variable parse_nth : list Token -> option (Z * Z).

Lemma stays_members (ss : list Selector) (es : list expr) :
  Forall (fun s => forall e,
            without_combinator s = true ->
            _compile_node parse_nth s = Ok e ->
            stays_on_element e = true) ss ->
  forallb without_combinator ss = true ->
  Forall2 (fun s x => _compile_node parse_nth s = Ok x) ss es ->
  forallb stays_on_element es = true.
Proof.
  intros HP Hw F. induction F as [|s e ss es Hs F IH]; [reflexivity|].
  cbn [forallb] in *. apply andb_true_iff in Hw as [Hw1 Hw2].
  inversion HP as [|? ? Hhead Htail]; subst.
  rewrite (Hhead e Hw1 Hs). now apply IH.
Qed.

Lemma compile_stays (s : Selector) :
  forall e,
    without_combinator s = true ->
    _compile_node parse_nth s = Ok e ->
    stays_on_element e = true.
Proof.
  induction s using Selector_induction; intros e Hw Hc.
  - discriminate Hw.
  - cbn [without_combinator] in Hw.
    destruct (compile_compound_ok _ _ _ Hc) as [es [F ->]].
    apply stays_compound_test. now apply (stays_members ss).
  - cbn [without_combinator] in Hw.
    destruct (compile_negation_ok _ _ _ Hc) as [es [F [_ ->]]].
    apply stays_negate, stays_compound_test. now apply (stays_members ss).
  - now injection Hc as <-.
  - now injection Hc as <-.
  - now injection Hc as <-.
  - now injection Hc as <-.
  - cbn [_compile_node] in Hc. destruct ns as [ns|]; [|discriminate].
    destruct op as [op|]; [|now injection Hc as <-].
    repeat match type of Hc with
           | (if ?b then _ else _) = _ => destruct b
           end; try discriminate Hc; now injection Hc as <-.
  - cbn [_compile_node] in Hc.
    repeat match type of Hc with
           | (if ?b then _ else _) = _ => destruct b
           end; try discriminate Hc; injection Hc as <-;
      cbn [stays_on_element]; now rewrite ?stays_html_tag_eq.
  - cbn [_compile_node] in Hc.
    destruct (String.eqb n "lang").
    + destruct (filter _ args) as [|t [|u r]]; try discriminate Hc.
      destruct (String.eqb (type t) "ident"); [|discriminate].
      now injection Hc as <-.
    + repeat match type of Hc with
             | context [if ?b then _ else _] => destruct b
             end; try discriminate Hc; cbn [rbind] in Hc;
        destruct (parse_nth args) as [[a b]|]; try discriminate Hc;
        destruct (Z.eqb a 0); now injection Hc as <-.
Qed.

(** X27.  A selector that holds no combinator, at any depth, compiles to a
    matcher whose answer on an element is decided by the data of the element
    itself (its index, its tree node, the tree nodes of its siblings and
    children, whose tags the [*-of-type] tests read, its names, id,
    classes, attributes and language) and by whether it has a parent: on two
    elements equal in these it answers the same, whatever their parents,
    previous siblings and ancestors are. *)
Theorem no_combinator_own_data
  (s : Selector) (e : expr) (el1 el2 : Element) :
  without_combinator s = true ->
  _compile_node parse_nth s = Ok e ->
  same_own_data el1 el2 ->
  matches e el1 = matches e el2.
Proof.
  intros Hw Hc. apply own_data_matches. now apply (compile_stays s).
Qed.

End Locality.

Lemma no_combinator_own_data_witness :
  matches (And (LocalNameEq "li") (Not FirstOfType)) Fixture.li2
  = matches (And (LocalNameEq "li") (Not FirstOfType)) Fixture.li2_moved.
Proof.
  apply (no_combinator_own_data Fixture.demo_parse_nth
           (CompoundSelector
              [LocalNameSelector "li";
               NegationSelector [PseudoClassSelector "first-of-type"]])).
  - reflexivity.
  - reflexivity.
  - repeat split.
Defined.

(** With a combinator the parent counts: [a > li] tells apart the two
    elements above, which differ in their parent alone. *)
Example combinator_reads_the_parent :
  same_own_data Fixture.li2 Fixture.li2_moved
  /\ exists e,
       _compile_node Fixture.demo_parse_nth
         (CombinedSelector (Fixture.compound "a") ">" (Fixture.compound "li"))
       = Ok e
       /\ matches e Fixture.li2 = true
       /\ matches e Fixture.li2_moved = false.
Proof. split; [repeat split | eexists; repeat split]. Qed.

(** ** The words of a text *)

Section Words.
Variable sep : ascii -> bool.

Lemma token_no_sep (w x y : list ascii) (c : ascii) :
  is_token sep w -> w = x ++ c :: y -> sep c = false.
Proof.
  intros [_ H] ->. rewrite forallb_app in H. apply andb_true_iff in H as [_ H].
  cbn in H. apply andb_true_iff in H as [H _]. now apply negb_true_iff.
Qed.

Lemma ends_with_sep_cons (c : ascii) (a0 : list ascii) :
  (exists a' x, c :: a0 = a' ++ [x] /\ sep x = true)
  <-> (a0 = [] /\ sep c = true)
      \/ (exists a' x, a0 = a' ++ [x] /\ sep x = true).
Proof.
  split.
  - intros [a' [x [E Hx]]]. destruct a' as [|d a'].
    + injection E as -> <-. now left.
    + injection E as <- ->. right. now exists a', x.
  - intros [[-> Hc]|[a' [x [-> Hx]]]].
    + now exists [], c.
    + now exists (c :: a'), x.
Qed.

Lemma runs_In (l cur w : list ascii) :
  is_token sep w ->
  In w (PyStr.runs sep cur l)
  <-> (exists t b, l = t ++ b /\ w = rev cur ++ t /\ right_bounded sep b)
      \/ (exists a b,
            l = a ++ w ++ b
            /\ (exists a' x, a = a' ++ [x] /\ sep x = true)
            /\ right_bounded sep b).
Proof.
  intros Hw. revert cur. induction l as [|c r IH]; intros cur.
  - cbn [PyStr.runs]. split.
    + intros H. left. exists [], []. split; [reflexivity|].
      rewrite app_nil_r. split; [|now left].
      destruct cur; [destruct H|]. now destruct H as [<-|[]].
    + intros [[t [b [E [-> _]]]]|[a [b [E [[a' [x [-> _]]] _]]]]].
      * symmetry in E. apply app_eq_nil in E as [-> ->].
        rewrite app_nil_r in *. destruct cur as [|d cur]; [now elim (proj1 Hw)|].
        now left.
      * symmetry in E. apply app_eq_nil in E as [E _].
        now apply app_eq_nil in E as [_ E].
  - cbn [PyStr.runs]. destruct (sep c) eqn:S.
    + assert (E1 : In w (match cur with
                         | [] => PyStr.runs sep [] r
                         | _ :: _ => rev cur :: PyStr.runs sep [] r
                         end)
                   <-> w = rev cur \/ In w (PyStr.runs sep [] r)).
      { destruct cur as [|d cur].
        - split; [now right | intros [E|H]; [now elim (proj1 Hw)|exact H]].
        - cbn [In]. split; intros [H|H]; auto. }
      rewrite E1, (IH []). clear E1. cbn [rev app]. split.
      * intros [->|[[t [b [-> [-> Hb]]]]|[a [b [-> [Ha Hb]]]]]].
        -- left. exists [], (c :: r). split; [reflexivity|].
           rewrite app_nil_r. split; [reflexivity|]. right. now exists c, r.
        -- right. exists [c], b. split; [reflexivity|]. split; [|exact Hb].
           now exists [], c.
        -- right. exists (c :: a), b. split; [reflexivity|]. split; [|exact Hb].
           apply ends_with_sep_cons. now right.
      * intros [[t [b [E [-> Hb]]]]|[a [b [E [Ha Hb]]]]].
        -- destruct t as [|d t].
           ++ left. now rewrite app_nil_r.
           ++ injection E as <- _. 
              rewrite (token_no_sep _ (rev cur) t c Hw eq_refl) in S.
              discriminate.
        -- right. destruct a as [|d a0]; [destruct Ha as [[|] [x [E' _]]]; discriminate|].
           injection E as <- ->. apply ends_with_sep_cons in Ha as [[-> _]|Ha].
           ++ left. exists w, b. now repeat split.
           ++ right. exists a0, b. now repeat split.
    + rewrite (IH (c :: cur)). cbn [rev]. split.
      * intros [[t [b [-> [-> Hb]]]]|[a [b [-> [Ha Hb]]]]].
        -- left. exists (c :: t), b. split; [reflexivity|].
           rewrite <- app_assoc. now split.
        -- right. exists (c :: a), b. split; [reflexivity|]. split; [|exact Hb].
           apply ends_with_sep_cons. now right.
      * intros [[t [b [E [-> Hb]]]]|[a [b [E [Ha Hb]]]]].
        -- destruct t as [|d t].
           ++ cbn in E. subst b. destruct Hb as [|[x [b' [[= <- <-] Hx]]]];
                [discriminate | congruence].
           ++ injection E as <- ->. left. exists t, b. split; [reflexivity|].
              rewrite <- app_assoc. now split.
        -- right. destruct a as [|d a0]; [destruct Ha as [[|] [x [E' _]]]; discriminate|].
           injection E as <- ->. apply ends_with_sep_cons in Ha as [[-> Hc]|Ha];
             [congruence|].
           exists a0, b. now repeat split.
Qed.

Lemma runs_delimited (l w : list ascii) :
  is_token sep w -> In w (PyStr.runs sep [] l) <-> delimited sep w l.
Proof.
  intros Hw. rewrite (runs_In l [] w Hw). unfold delimited, left_bounded. cbn [rev app].
  split.
  - intros [[t [b [-> [-> Hb]]]]|[a [b [-> [Ha Hb]]]]].
    + exists [], b. repeat split; auto.
    + exists a, b. repeat split; auto.
  - intros [a [b [-> [[->|Ha] Hb]]]].
    + left. now exists w, b.
    + right. now exists a, b.
Qed.

(** The runs are tokens, and together they are the text without its
    separators. *)
Lemma runs_words (l cur : list ascii) :
  forallb (fun c => negb (sep c)) cur = true ->
  Forall (is_token sep) (PyStr.runs sep cur l)
  /\ concat (PyStr.runs sep cur l) = rev cur ++ filter (fun c => negb (sep c)) l.
Proof.
  revert cur. induction l as [|c r IH]; intros cur Hc.
  - cbn. destruct cur as [|d cur]; [split; [constructor | reflexivity]|].
    split.
    + constructor; [|constructor]. split.
      * intros E. apply (f_equal (@List.length ascii)) in E.
        rewrite length_rev in E. discriminate.
      * rewrite forallb_forall in *. intros x Hx. apply Hc. now apply in_rev.
    + cbn [concat]. now rewrite !app_nil_r.
  - cbn [PyStr.runs filter]. destruct (sep c) eqn:S; cbn [negb].
    + destruct (IH [] eq_refl) as [F E]. destruct cur as [|d cur]; [now split|].
      split.
      * constructor; [|exact F]. split.
        -- intros E'. apply (f_equal (@List.length ascii)) in E'.
           rewrite length_rev in E'. discriminate.
        -- rewrite forallb_forall in *. intros x Hx. apply Hc. now apply in_rev.
      * cbn [concat]. now rewrite E.
    + destruct (IH (c :: cur)) as [F E].
      { cbn. now rewrite S, Hc. }
      split; [exact F|]. rewrite E. cbn [rev]. now rewrite <- app_assoc.
Qed.
End Words.


Lemma In_findall (w s : string) :
  In w (PyStr.findall_non_css_space s)
  <-> In (PyStr.chars w) (PyStr.runs PyStr.css_space [] (PyStr.chars s)).
Proof.
  unfold PyStr.findall_non_css_space, PyStr.chars. rewrite in_map_iff. split.
  - intros [x [<- Hx]]. now rewrite list_ascii_of_string_of_list_ascii.
  - intros H. exists (list_ascii_of_string w).
    split; [apply string_of_list_ascii_of_string | exact H].
Qed.

(** X28.  [split_whitespace] returns words that are not empty and hold none
    of the five whitespace characters; joined, they are the text with its
    whitespace removed; and a token is among them exactly when it stands in
    the text between whitespace or the ends of the text. *)
Theorem split_whitespace_words (s : string) :
  Forall (fun w => is_token PyStr.css_space (PyStr.chars w))
    (PyStr.findall_non_css_space s)
  /\ concat (map PyStr.chars (PyStr.findall_non_css_space s))
     = filter (fun c => negb (PyStr.css_space c)) (PyStr.chars s)
  /\ forall w,
       is_token PyStr.css_space (PyStr.chars w) ->
       In w (PyStr.findall_non_css_space s)
       <-> delimited PyStr.css_space (PyStr.chars w) (PyStr.chars s).
Proof.
  destruct (runs_words PyStr.css_space (PyStr.chars s) [] eq_refl) as [F E].
  cbn [rev app] in E. split; [|split].
  - unfold PyStr.findall_non_css_space. apply Forall_map.
    apply Forall_impl with (2 := F). intros w Hw. unfold PyStr.chars.
    now rewrite list_ascii_of_string_of_list_ascii.
  - unfold PyStr.findall_non_css_space. rewrite map_map.
    rewrite <- E. unfold PyStr.chars. f_equal.
    rewrite <- map_id. apply map_ext.
    intros w. apply list_ascii_of_string_of_list_ascii.
  - intros w Hw. rewrite In_findall. now apply runs_delimited.
Qed.

Section Includes.

Variable parse_nth : list Token -> option (Z * Z).


(** Two operands with a character between their letters: a space and a
    vertical tab.  Neither is a single token for the compiler, though the
    second holds none of the five characters of [split_whitespace]. *)
Example includes_vertical_tab :
  single_token "foo bar" = false
  /\ single_token
       (String "a" (String (ascii_of_nat 11) (String "b" EmptyString)))
     = false
  /\ is_token PyStr.css_space
       (PyStr.chars
          (String "a" (String (ascii_of_nat 11) (String "b" EmptyString))))
  /\ _compile_node parse_nth
       (attribute EmptyString "title" "~="
          (String "a" (String (ascii_of_nat 11) (String "b" EmptyString))))
     = Ok Zero.
Proof. repeat split. discriminate. Qed.

End Includes.
